(** * ibind: the REST client of [ibind/base/rest_client.py]

    A shallow embedding of [Result], [RestClient.__init__], the [logger]
    property, [RestClient.request] with its retry loop, [_process_response]
    and the [get]/[post]/[delete] wrappers, followed by the properties of
    the specification that concern them. *)

From Stdlib Require Import ZArith List Bool Ascii String Lia.
From stdpp Require Import base strings list gmap pretty.

#[local] Set Warnings "-register-all".
Local Open Scope Z_scope.
Local Open Scope string_scope.
Local Open Scope list_scope.

(** ** Python values *)

(** The values that travel as keyword arguments and as parsed response
    bodies.  [VUndefined] is the [UNDEFINED] singleton of
    [support.py_utils]; nested mappings keep their items as a list. *)
Inductive value : Type :=
| VNone
| VUndefined
| VBool (b : bool)
| VInt (z : Z)
| VStr (s : string)
| VList (items : list value)
| VDict (items : list (string * value)).

(** [v is UNDEFINED] *)
Definition is_undefined (v : value) : bool :=
  match v with VUndefined => true | _ => false end.

(** The keyword arguments of a call, [**kwargs]. *)
Abbreviation kwargs_t := (gmap string value).

(** Modelled from the spec: [filter_none] of [support.py_utils], which
    [request] applies to its keyword arguments, is not among the sources.
    The specification (4.4, step 2; 6; property 7) has it remove every
    argument whose value is the absent marker and nothing else, also among
    the parameters of a nested mapping such as [params]. *)
Fixpoint strip_absent (v : value) : value :=
  match v with
  | VDict items =>
      VDict
        ((fix strip_items (l : list (string * value)) :=
            match l with
            | [] => []
            | (k, x) :: l' =>
                if is_undefined x then strip_items l'
                else (k, strip_absent x) :: strip_items l'
            end) items)
  | _ => v
  end.

(** Modelled from the spec: the filter on the keyword arguments of a call,
    as the specification describes it.  (The comment at the call site, line
    153, speaks of removing [None] parameters instead: see [removes_None]
    below.) *)
Definition filter_absent (kw : kwargs_t) : kwargs_t :=
  omap (fun v => if is_undefined v then None else Some (strip_absent v)) kw.





(** ** Exceptions *)

(** The exception classes that the module names or that reach it:
    [requests.exceptions] ([ReadTimeout] and [ConnectTimeout] derive from
    [Timeout]; [Timeout], [HTTPError], [ConnectionError] and
    [JSONDecodeError] derive from [RequestException]), the builtins, and
    [support.errors.ExternalBrokerError].  [KeyboardInterrupt] stands for the
    classes that do not derive from [Exception]. *)
Inductive exn_class : Type :=
| ReadTimeout | ConnectTimeout | Timeout | HTTPError | ConnectionError
| RequestException | JSONDecodeError
| ValueError | TypeError | AttributeError | TimeoutError
| ExternalBrokerError
| KeyboardInterrupt.

(** An exception object: class, message, the [status_code] keyword of
    [ExternalBrokerError], and [__cause__] as set by [raise ... from e]. *)
Inductive exn : Type :=
  Exn { exn_class_of : exn_class;
        exn_msg : string;
        exn_status_code : option Z;
        exn_cause : option exn }.

(** [isinstance(e, ReadTimeout)] *)
Definition is_ReadTimeout (e : exn) : bool :=
  match exn_class_of e with ReadTimeout => true | _ => false end.

(** [isinstance(e, Timeout)] *)
Definition is_Timeout (e : exn) : bool :=
  match exn_class_of e with
  | ReadTimeout | ConnectTimeout | Timeout => true
  | _ => false
  end.

(** [isinstance(e, Exception)] *)
Definition is_Exception (e : exn) : bool :=
  match exn_class_of e with KeyboardInterrupt => false | _ => true end.

(** ** Strings *)

(** [s.endswith('/')] *)
Fixpoint endswith_slash (s : string) : bool :=
  match s with
  | EmptyString => false
  | String c EmptyString => Ascii.eqb c "/"%char
  | String _ s' => endswith_slash s'
  end.

(** [str(n)] for an [int]. *)
Definition str_int (n : Z) : string := pretty n.

(** [os.path.join(a, b)] on POSIX paths. *)
Definition os_path_join (a b : string) : string :=
  match b with
  | String "/"%char _ => b
  | _ => if decide (a = EmptyString) then b
         else if endswith_slash a then a +:+ b else a +:+ "/" +:+ b
  end.

(** ** Result (the pure view used on the request path) *)

(** [@dataclass class Result]: [data] defaults to [None], [request] (here
    [request_], the name [request] being the method of the client) to a
    fresh empty dict. *)
Record Result : Type := mkResult {
  data : value;
  request_ : kwargs_t
}.

(** [Result(request=r)] *)
Definition Result_of_request (r : kwargs_t) : Result :=
  {| data := VNone; request_ := r |}.

(** ** Responses of the transport *)

(** What the module reads of a [requests.Response]: three attributes and
    the outcome of its two methods.  [raise_for_status] is [None] when the
    method returns normally and [Some e] when it raises [e] (in [requests],
    an [HTTPError] for the status codes 400 to 599); [json] is the parsed
    body or the exception of the parser. *)
Record Response : Type := mkResponse {
  status_code : Z;
  reason : string;
  text : string;
  raise_for_status : option exn;
  json : exn + value
}.

(** ** The client, its collaborators and the world it runs in *)

(** The [cacert] argument, [Union[os.PathLike, bool]]. *)
Inductive cacert_t : Type :=
| CaBool (b : bool)
| CaPath (p : string).

(** A logging sink, as returned by [new_daily_rotating_file_handler]. *)
Definition sink : Type := nat.

(** The outcome of evaluating a call: the value returned or the exception
    raised. *)
Inductive outcome (A : Type) : Type :=
| Return (a : A)
| Raise (e : exn).
Arguments Return {A} a.
Arguments Raise {A} e.

(** What the module takes from outside: the type of the [timeout] argument
    (a Python number) with its [str], Python's [repr] of values and dicts,
    the file system, [var.LOGS_DIR], the handler factory of [support.logs],
    the filter of [support.py_utils], and the HTTP transport.  A call of
    [transport] gets the arguments of the call and the number of calls made
    before it. *)
Class Env : Type := {
  duration : Type;
  str_duration : duration -> string;
  repr_value : value -> string;
  repr_kwargs : kwargs_t -> string;
  path_exists : string -> bool;
  LOGS_DIR : string;
  new_daily_rotating_file_handler : string -> string -> nat -> sink;
  filter_none : kwargs_t -> kwargs_t;
  transport :
    string -> string -> cacert_t -> duration -> kwargs_t -> nat ->
    outcome Response
}.

Section Client.
Context `{Env}.

(** One evaluation of [requests.request(method, url, verify=..., timeout=...,
    **kwargs)]. *)
Record call : Type := Call {
  call_method : string;
  call_url : string;
  call_verify : cacert_t;
  call_timeout : duration;
  call_kwargs : kwargs_t
}.

(** [self.logger] or the module's [_LOGGER]. *)
Inductive logger_ref : Type :=
| ClientLogger (s : sink)
| ModuleLogger.

(** [.info(msg)] and [.exception(e)] on a logger. *)
Inductive log_record : Type :=
| LogInfo (l : logger_ref) (msg : string)
| LogException (l : logger_ref) (e : exn).

(** The effects of the module: the evaluations so far of the transport
    call of line 162 (one that Python rejects for an argument passed twice
    included), the number of handlers created so far, and the log records
    emitted so far (oldest first). *)
Record world : Type := World {
  calls : list call;
  handlers_made : nat;
  records : list log_record
}.

(** The attributes of a [RestClient]; [_logger] is [None] while the
    attribute is not set. *)
Record RestClient : Type := mkRestClient {
  base_url : string;
  cacert : cacert_t;
  _timeout : duration;
  _max_retries : Z;
  _logger : option sink
}.

(** A client in its world. *)
Record state : Type := State {
  self : RestClient;
  env : world
}.

Definition set_logger (l : sink) (c : RestClient) : RestClient :=
  mkRestClient (base_url c) (cacert c) (_timeout c) (_max_retries c) (Some l).

Definition add_call (c : call) (w : world) : world :=
  World (calls w ++ [c]) (handlers_made w) (records w).

Definition add_handler (w : world) : world :=
  World (calls w) (S (handlers_made w)) (records w).

Definition add_record (r : log_record) (w : world) : world :=
  World (calls w) (handlers_made w) (records w ++ [r]).

(** *** Computations that may raise *)

Definition M (A : Type) : Type := state -> outcome A * state.

#[global] Instance M_ret : MRet M := fun A a s => (Return a, s).

#[global] Instance M_bind : MBind M := fun A B k m s =>
  match m s with
  | (Return a, s') => k a s'
  | (Raise e, s') => (Raise e, s')
  end.

Definition raise {A : Type} (e : exn) : M A := fun s => (Raise e, s).

(** [try: m  except ... as e: h e] *)
Definition try_except {A : Type} (m : M A) (h : exn -> M A) : M A := fun s =>
  match m s with
  | (Return a, s') => (Return a, s')
  | (Raise e, s') => h e s'
  end.

(** Reading an attribute of [self]. *)
Definition attr {A : Type} (f : RestClient -> A) : M A :=
  fun s => (Return (f (self s)), s).

Definition emit (r : log_record) : M unit :=
  fun s => (Return tt, State (self s) (add_record r (env s))).

(** *** The logger *)

(** [make_logger]: creates a handler and stores it in [self._logger]. *)
Definition make_logger : M unit := fun s =>
  let h := new_daily_rotating_file_handler
             "RestClient" (os_path_join LOGS_DIR "rest_client")
             (handlers_made (env s)) in
  (Return tt, State (set_logger h (self s)) (add_handler (env s))).

(** [self._logger]: raises [AttributeError] while the attribute is not set. *)
Definition get__logger : M sink := fun s =>
  match _logger (self s) with
  | Some l => (Return l, s)
  | None =>
      (Raise (Exn AttributeError
                "'RestClient' object has no attribute '_logger'" None None), s)
  end.

(** The [logger] property. *)
Definition logger : M sink :=
  try_except get__logger
    (fun e =>
       match exn_class_of e with
       | AttributeError => make_logger;; get__logger
       | _ => raise e
       end).

(** *** Construction *)

(** [self.cacert is False] *)
Definition is_False (ca : cacert_t) : bool :=
  match ca with CaBool false => true | _ => false end.

(** [Path(self.cacert).exists()]; [Path] does not take a [bool]. *)
Definition Path_exists (ca : cacert_t) : outcome bool :=
  match ca with
  | CaPath p => Return (path_exists p)
  | CaBool _ =>
      Raise (Exn TypeError
               "expected str, bytes or os.PathLike object, not bool" None None)
  end.

(** [RestClient.__init__(url, cacert, timeout, max_retries)], run in world
    [w]: the client built, or the exception raised. *)
Definition __init__ (url : option string) (ca : cacert_t) (timeout : duration)
    (max_retries : Z) (w : world) : outcome RestClient * world :=
  match url with
  | None => (Raise (Exn ValueError "url must not be None" None None), w)
  | Some u =>
      let base := if endswith_slash u then u else u +:+ "/" in
      (* [self.cacert is False or Path(self.cacert).exists()] *)
      match (if is_False ca then Return true else Path_exists ca) with
      | Raise e => (Raise e, w)
      | Return false =>
          (Raise (Exn ValueError "cacert must be a valid Path or False"
                    None None), w)
      | Return true =>
          let '(_, s) :=
            make_logger
              (State (mkRestClient base ca timeout max_retries None) w) in
          (Return (self s), env s)
      end
  end.

(** *** The transport call *)

(** The names that the call of line 162 binds itself: the keywords
    [verify] and [timeout] written at the call, and the parameters [method]
    and [url] of [requests.request(method, url, **kwargs)] that it passes by
    position. *)
Definition bound_names : list string := ["verify"; "timeout"; "method"; "url"].

(** The first of these names that [kwargs] binds again. *)
Definition duplicate_argument (kw : kwargs_t) : option string :=
  List.find (fun k => bool_decide (is_Some (kw !! k))) bound_names.

(** The value of the call expression
    [requests.request(method, url, verify=..., timeout=..., **kwargs)] when
    [n] such calls were evaluated before: Python raises [TypeError] when an
    argument is passed twice, otherwise the transport decides. *)
Definition requests_request (c : call) (n : nat) : outcome Response :=
  match duplicate_argument (call_kwargs c) with
  | Some k =>
      Raise (Exn TypeError
               ("request() got multiple values for argument '" +:+ k +:+ "'")
               None None)
  | None =>
      transport (call_method c) (call_url c) (call_verify c) (call_timeout c)
        (call_kwargs c) n
  end.

(** Evaluating the call in the world: it is recorded in [calls]. *)
Definition do_request (method url : string) (kw : kwargs_t) : M Response :=
  fun s =>
    let c := Call method url (cacert (self s)) (_timeout (self s)) kw in
    let s' := State (self s) (add_call c (env s)) in
    match requests_request c (length (calls (env s))) with
    | Return r => (Return r, s')
    | Raise e => (Raise e, s')
    end.

(** *** Response processing *)

(** [repr] of the dataclass. *)
Definition repr_Result (r : Result) : string :=
  "Result(data=" +:+ repr_value (data r) +:+ ", request="
    +:+ repr_kwargs (request_ r) +:+ ")".

(** [RestClient._process_response(response, result)] *)
Definition _process_response (response : Response) (result : Result)
    : M Result :=
  try_except
    (match raise_for_status response with
     | Some e => raise e
     | None =>
         match json response with
         | inl e => raise e
         | inr v => mret (mkResult v (request_ result))
         end
     end)
    (fun e =>
       if is_Timeout e then
         t ← attr _timeout;
         raise (Exn ExternalBrokerError
                  ("Timeout error (" +:+ str_duration t +:+ "S)")
                  (Some (status_code response)) (Some e))
       else if is_Exception e then
         raise (Exn ExternalBrokerError
                  ("IbkrClient response error " +:+ repr_Result result
                     +:+ " :: " +:+ str_int (status_code response)
                     +:+ " :: " +:+ reason response
                     +:+ " :: " +:+ text response)
                  (Some (status_code response)) (Some e))
       else raise e).

(** *** The dispatcher *)

(** [range(n)] *)
Definition range (n : Z) : list Z := List.map Z.of_nat (seq 0 (Z.to_nat n)).

(** How an iteration of a loop body ends: [continue] (or its end), or
    [return a]. *)
Inductive flow (A : Type) : Type :=
| Continue
| Returns (a : A).
#[global] Arguments Continue {A}.
#[global] Arguments Returns {A} a.

(** [for x in xs: body]; [None] when the loop runs to its end. *)
Fixpoint for_in {A : Type} (xs : list Z) (body : Z -> M (flow A))
    : M (option A) :=
  match xs with
  | [] => mret None
  | x :: xs' =>
      r ← body x;
      match r with
      | Continue => for_in xs' body
      | Returns a => mret (Some a)
      end
  end.

(** [{'url': url, **kwargs}] *)
Definition request_dict (url : string) (kw : kwargs_t) : kwargs_t :=
  kw ∪ {[ "url" := VStr url ]}.

(** The [try] block of the retry loop (lines 162 to 164). *)
Definition try_block (method url : string) (kw : kwargs_t) : M (flow Result) :=
  response ← do_request method url kw;
  let result := Result_of_request (request_dict url kw) in
  r ← _process_response response result;
  mret (Returns r).

(** Its [except] clauses (lines 166 to 177) on the exception [e] at index
    [attempt]. *)
Definition on_failure (method url : string) (kw : kwargs_t) (log : bool)
    (attempt : Z) (e : exn) : M (flow Result) :=
  if is_ReadTimeout e then
    max_retries ← attr _max_retries;
    if (attempt >=? max_retries)%Z then
      raise (Exn TimeoutError
               ("Reached max retries (" +:+ str_int max_retries
                  +:+ ") for " +:+ method +:+ " " +:+ url +:+ " "
                  +:+ repr_kwargs kw)
               None (Some e))
    else
      emit (LogInfo ModuleLogger
              ("Timeout for " +:+ method +:+ " " +:+ url
                 +:+ ", retrying attempt " +:+ str_int (attempt + 1)
                 +:+ "/" +:+ str_int max_retries));;
      mret Continue
  else if is_Exception e then
    (if log then l ← logger; emit (LogException (ClientLogger l) e)
     else mret tt);;
    raise e
  else raise e.

(** The body of the retry loop at index [attempt]. *)
Definition attempt_body (method url : string) (kw : kwargs_t) (log : bool)
    (attempt : Z) : M (flow Result) :=
  try_except (try_block method url kw) (on_failure method url kw log attempt).

(** [RestClient.request(method, endpoint, attempt, log, **kwargs)]; the
    result is [None] when the function runs to its end without [return]. *)
Definition request (method endpoint : string) (attempt : Z) (log : bool)
    (kwargs : kwargs_t) : M (option Result) :=
  base ← attr base_url;
  let url := base +:+ endpoint in
  let kwargs := filter_none kwargs in
  (if log then
     l ← logger;
     emit (LogInfo (ClientLogger l)
             (method +:+ " " +:+ url +:+ " " +:+ repr_kwargs kwargs
                +:+ (if (0 <? attempt)%Z
                     then " (attempt: " +:+ str_int attempt +:+ ")"
                     else EmptyString)))
   else mret tt);;
  max_retries ← attr _max_retries;
  for_in (range (max_retries + 1)) (attempt_body method url kwargs log).

(** [get], [post] and [delete]. *)
Definition get (path : string) (params : value) (log : bool)
    : M (option Result) :=
  request "GET" path 0 log {[ "params" := params ]}.

Definition post (path : string) (params : value) (log : bool)
    : M (option Result) :=
  request "POST" path 0 log {[ "json" := params ]}.

Definition delete (path : string) (params : value) (log : bool)
    : M (option Result) :=
  request "DELETE" path 0 log {[ "json" := params ]}.

(** *** Notions used to state the properties *)

(** The attributes that [request] reads, other than the logger. *)
Definition same_config (c c' : RestClient) : Prop :=
  base_url c' = base_url c /\ cacert c' = cacert c /\
  _timeout c' = _timeout c /\ _max_retries c' = _max_retries c.

(** [s'] is [s] after the transport calls [cs], with the configuration of
    the client as it was. *)
Definition extends (s s' : state) (cs : list call) : Prop :=
  same_config (self s) (self s') /\ calls (env s') = calls (env s) ++ cs.

(** The call that the client of [s] evaluates for a method, a URL and
    keyword arguments. *)
Definition call_of (s : state) (method url : string) (kw : kwargs_t) : call :=
  Call method url (cacert (self s)) (_timeout (self s)) kw.

(** [f"{self.base_url}{endpoint}"] *)
Definition resolved_url (s : state) (endpoint : string) : string :=
  base_url (self s) +:+ endpoint.

(** The transport call of [request(method, endpoint, **kw)] on the client
    of [s]. *)
Definition request_call (s : state) (method endpoint : string)
    (kw : kwargs_t) : call :=
  call_of s method (resolved_url s endpoint) (filter_none kw).

(** The transport call [c], evaluated as call number [n], raises a
    [ReadTimeout]. *)
Definition times_out (c : call) (n : nat) : Prop :=
  exists e, requests_request c n = Raise e /\ is_ReadTimeout e = true.

(** The message of the fatal error of [_process_response]. *)
Definition response_error_msg (response : Response) (result : Result)
    : string :=
  "IbkrClient response error " +:+ repr_Result result
    +:+ " :: " +:+ str_int (status_code response)
    +:+ " :: " +:+ reason response +:+ " :: " +:+ text response.

(** [e] is what [raise_for_status] or, after it, [json] raises. *)
Definition processing_raises (response : Response) (e : exn) : Prop :=
  raise_for_status response = Some e \/
  (raise_for_status response = None /\ json response = inl e).

(** [cacert] passes the check of [__init__]. *)
Definition cacert_valid (ca : cacert_t) : Prop :=
  ca = CaBool false \/ exists p, ca = CaPath p /\ path_exists p = true.

(** *** Notions used to state further properties *)

(** The line that [request] logs before the loop (line 157). *)
Definition request_line (method url : string) (kw : kwargs_t) (attempt : Z)
    : string :=
  method +:+ " " +:+ url +:+ " " +:+ repr_kwargs kw
    +:+ (if (0 <? attempt)%Z
         then " (attempt: " +:+ str_int attempt +:+ ")"
         else EmptyString).

(** The line that the loop logs when it goes on to attempt [j] after a
    timeout (line 170). *)
Definition retry_line (method url : string) (max_retries : Z) (j : nat)
    : string :=
  "Timeout for " +:+ method +:+ " " +:+ url +:+ ", retrying attempt "
    +:+ str_int (Z.of_nat j) +:+ "/" +:+ str_int max_retries.

(** The sink that an access to [self.logger] yields in [s]: the one held,
    or the one that [make_logger] creates there. *)
Definition sink_of (s : state) : sink :=
  match _logger (self s) with
  | Some l => l
  | None =>
      new_daily_rotating_file_handler "RestClient"
        (os_path_join LOGS_DIR "rest_client") (handlers_made (env s))
  end.

(** [s] after an access to [self.logger]. *)
Definition with_sink (s : state) : state :=
  match _logger (self s) with
  | Some _ => s
  | None => State (set_logger (sink_of s) (self s)) (add_handler (env s))
  end.

(** A record of the module's [_LOGGER]. *)
Definition module_record (r : log_record) : Prop :=
  match r with
  | LogInfo ModuleLogger _ => True
  | _ => False
  end.

(** [kw] binds one of the names that line 162 passes itself. *)
Definition rebinds (kw : kwargs_t) : Prop :=
  exists key, (key = "verify" \/ key = "timeout" \/ key = "url") /\
              is_Some (kw !! key).

(** [s] when the loop of [request] starts: with [log], the sink was accessed
    and the line of the request logged. *)
Definition after_request_line (method url : string) (kw : kwargs_t)
    (attempt : Z) (log : bool) (s : state) : state :=
  if log then
    State (self (with_sink s))
      (add_record
         (LogInfo (ClientLogger (sink_of s))
            (request_line method url kw attempt))
         (env (with_sink s)))
  else s.

(** [s] after [k] timeouts in a row, the first of them at attempt [a], each
    followed by a retry. *)
Definition after_retries (method url : string) (kw : kwargs_t) (a k : nat)
    (s : state) : state :=
  State (self s)
    (World (calls (env s) ++ replicate k (call_of s method url kw))
       (handlers_made (env s))
       (records (env s) ++
          List.map
            (fun j =>
               LogInfo ModuleLogger
                 (retry_line method url (_max_retries (self s)) j))
            (seq (S a) k))).

(** The client keeps its attributes and no handler is created from [s] to
    [s']. *)
Definition steady (s s' : state) : Prop :=
  self s' = self s /\ handlers_made (env s') = handlers_made (env s).

(** The records that a step appends; without [log] they are the module's. *)
Definition appends (log : bool) (s s' : state) : Prop :=
  exists rs, records (env s') = records (env s) ++ rs /\
             (log = false -> Forall module_record rs).

End Client.

(** ** Result objects and their containers on the heap

    [Result.copy] is about the identity of the containers that [data] and
    [request] refer to, so here a field holds a reference and the containers
    live in a heap. *)

Definition loc : Type := nat.

(** A value as a field or an item holds it: an immediate or a reference to
    a container. *)
Inductive pyval : Type :=
| PNone
| PUndefined
| PBool (b : bool)
| PInt (z : Z)
| PStr (s : string)
| PRef (l : loc).

(** A [list] or a [dict] object. *)
Inductive container : Type :=
| CList (items : list pyval)
| CDict (items : gmap string pyval).

Abbreviation heap := (gmap loc container).

(** The fields of a [Result] instance. *)
Record ResultObj : Type := mkResultObj {
  obj_data : pyval;
  obj_request : pyval
}.

(** [v is not UNDEFINED] *)
Definition is_not_UNDEFINED (v : pyval) : bool :=
  match v with PUndefined => false | _ => true end.

(** The name of the type of an immediate, as [AttributeError] prints it. *)
Definition type_name (v : pyval) : string :=
  match v with
  | PNone => "NoneType"
  | PUndefined => "object"
  | PBool _ => "bool"
  | PInt _ => "int"
  | PStr _ => "str"
  | PRef _ => "dict"
  end.

Definition no_copy_attribute (v : pyval) : exn :=
  Exn AttributeError
    ("'" +:+ type_name v +:+ "' object has no attribute 'copy'") None None.

(** [v.copy()]: [list.copy] and [dict.copy] allocate a container with the
    same items; the other values have no such method.  (A reference of a
    running program is never dangling; the model raises there as well.) *)
Definition copy_method (v : pyval) (h : heap) : outcome pyval * heap :=
  match v with
  | PRef l =>
      match h !! l with
      | Some c => let l' := fresh (dom h) in (Return (PRef l'), <[l' := c]> h)
      | None => (Raise (no_copy_attribute v), h)
      end
  | _ => (Raise (no_copy_attribute v), h)
  end.

(** [Result.copy(self, data=UNDEFINED, request=UNDEFINED)] *)
Definition Result_copy (self : ResultObj) (data request : pyval) (h : heap)
    : outcome ResultObj * heap :=
  let '(d, h1) :=
    if is_not_UNDEFINED data then (Return data, h)
    else copy_method (obj_data self) h in
  match d with
  | Raise e => (Raise e, h1)
  | Return d' =>
      let '(r, h2) :=
        if is_not_UNDEFINED request then (Return request, h1)
        else copy_method (obj_request self) h1 in
      match r with
      | Raise e => (Raise e, h2)
      | Return r' => (Return (mkResultObj d' r'), h2)
      end
  end.

(** [pass_result(data, old_result)] *)
Definition pass_result (data : pyval) (old_result : ResultObj) (h : heap)
    : outcome ResultObj * heap :=
  Result_copy old_result data PUndefined h.

(** [Result()] in a heap: [data] is [None], [request] a fresh empty dict. *)
Definition Result_default (h : heap) : ResultObj * heap :=
  let l := fresh (dom h) in
  (mkResultObj PNone (PRef l), <[l := CDict ∅]> h).

(** ** Environments for the examples *)

(** A [repr] for the examples (quotes in strings are not escaped, and the
    marker prints without its address). *)
Fixpoint example_repr (v : value) : string :=
  match v with
  | VNone => "None"
  | VUndefined => "<object object>"
  | VBool b => if b then "True" else "False"
  | VInt z => pretty z
  | VStr s => "'" +:+ s +:+ "'"
  | VList items =>
      "[" +:+ String.concat ", " (List.map example_repr items) +:+ "]"
  | VDict items =>
      "{" +:+ String.concat ", "
                (List.map
                   (fun kv => "'" +:+ fst kv +:+ "': " +:+ example_repr (snd kv))
                   items)
        +:+ "}"
  end.

(** An environment whose transport follows [script], the outcome of each
    call by its number; timeouts are whole seconds, one CA bundle exists,
    and the filter is the one modelled from the specification. *)
Definition example_env (script : nat -> outcome Response) : Env :=
  {| duration := Z;
     str_duration := pretty;
     repr_value := example_repr;
     repr_kwargs := fun kw => example_repr (VDict (map_to_list kw));
     path_exists := fun p => bool_decide (p = "/etc/ssl/ca.pem");
     LOGS_DIR := "/var/log/ibind";
     new_daily_rotating_file_handler := fun _ _ n => n;
     filter_none := filter_absent;
     transport := fun _ _ _ _ _ n => script n |}.

Definition read_timeout (n : nat) : exn :=
  Exn ReadTimeout ("read timed out (call " +:+ pretty n +:+ ")") None None.

Definition connection_refused : exn :=
  Exn ConnectionError "connection refused" None None.

Definition ok_response : Response :=
  mkResponse 200 "OK" "(body)" None
    (inr (VDict [("status", VStr "ok")])).

Definition not_found_response : Response :=
  mkResponse 404 "Not Found" "not found"
    (Some (Exn HTTPError "404 Client Error: Not Found" None None))
    (inl (Exn JSONDecodeError "Expecting value" None None)).

(** Two timeouts, then a response with status 200. *)
Definition third_time_lucky (n : nat) : outcome Response :=
  if (n <? 2)%nat then Raise (read_timeout n) else Return ok_response.

(** A client on [https://api.test/] without certificate verification, with
    a timeout of 10 seconds and its sink created, in a world without calls
    or log records. *)
Definition example_state (script : nat -> outcome Response) (max_retries : Z)
    : @state (example_env script) :=
  @State (example_env script)
    (@mkRestClient (example_env script) "https://api.test/" (CaBool false)
       10 max_retries (Some 0%nat))
    (@World (example_env script) [] 1 []).

Definition new_world (script : nat -> outcome Response)
    : @world (example_env script) :=
  @World (example_env script) [] 0 [].

(** The same client before its sink is created ([_logger] not set). *)
Definition example_state_without_sink (script : nat -> outcome Response)
    (max_retries : Z) : @state (example_env script) :=
  @State (example_env script)
    (@mkRestClient (example_env script) "https://api.test/" (CaBool false)
       10 max_retries None)
    (new_world script).

(** [RestClient("https://api.test", cacert, 10, max_retries)] in a new
    world. *)
Definition example_init (script : nat -> outcome Response) (ca : cacert_t)
    (max_retries : Z)
    : outcome (@RestClient (example_env script)) * @world (example_env script) :=
  @__init__ (example_env script) (Some "https://api.test") ca 10 max_retries
    (new_world script).

(** Every call times out. *)
Definition always_times_out (n : nat) : outcome Response :=
  Raise (read_timeout n).

(** Every call is refused. *)
Definition always_refused (n : nat) : outcome Response :=
  Raise connection_refused.

(** Every call is answered with status 404. *)
Definition always_not_found (n : nat) : outcome Response :=
  Return not_found_response.

(** A field value is usable in [h]: an immediate, or a reference to a
    container of [h] (a running program holds no other reference). *)
Definition live (h : heap) (v : pyval) : Prop :=
  match v with
  | PRef l => is_Some (h !! l)
  | _ => True
  end.

(** [v] refers to a container. *)
Definition is_ref (v : pyval) : Prop :=
  match v with
  | PRef _ => True
  | _ => False
  end.

(** A heap with one dict, at location 0, and a [Result] whose [request] is
    that dict and whose [data] is [None]. *)
Definition example_heap : heap :=
  {[ 0%nat := CDict {[ "url" := PStr "u" ]} ]}.

Definition example_result : ResultObj := mkResultObj PNone (PRef 0%nat).

(** The same heap with a list at location 1 and a dict at location 2 that
    holds the list, and a [Result] with that dict as [data]. *)
Definition example_heap_nested : heap :=
  {[ 0%nat := CDict {[ "url" := PStr "u" ]};
     1%nat := CList [PInt 1];
     2%nat := CDict {[ "a" := PRef 1%nat ]} ]}.

Definition example_result_nested : ResultObj :=
  mkResultObj (PRef 2%nat) (PRef 0%nat).

(** A response with status 200 whose body is not JSON. *)
Definition unparsable_response : Response :=
  mkResponse 200 "OK" "<html>" None
    (inl (Exn JSONDecodeError "Expecting value" None None)).

(** Every call is answered with that response. *)
Definition always_unparsable (n : nat) : outcome Response :=
  Return unparsable_response.




(** * Properties *)

Section ClientFacts.
Context `{Env}.

Lemma extends_refl s : extends s s [].
Proof. unfold extends, same_config. rewrite app_nil_r. tauto. Qed.

Lemma extends_trans s1 s2 s3 cs cs' :
  extends s1 s2 cs -> extends s2 s3 cs' -> extends s1 s3 (cs ++ cs').
Proof.
  unfold extends, same_config.
  intros [(A1 & A2 & A3 & A4) A5] [(B1 & B2 & B3 & B4) B5].
  rewrite B1, B2, B3, B4, B5, A5, app_assoc. tauto.
Qed.

Ltac run_m := unfold mbind, M_bind, mret, M_ret, raise, attr, emit, try_except.

Lemma logger_runs s :
  exists l s', logger s = (Return l, s') /\ extends s s' [] /\
               _logger (self s') = Some l.
Proof.
  unfold logger, get__logger, try_except.
  destruct (_logger (self s)) as [l|] eqn:E.
  - exists l, s. split; [reflexivity|]. split; [apply extends_refl | exact E].
  - cbn [exn_class_of]. unfold make_logger. run_m. cbn.
    eexists _, _. split; [reflexivity|]. split; [|reflexivity].
    unfold extends, same_config; cbn. rewrite app_nil_r. tauto.
Qed.

Lemma extends_add_call s c :
  extends s (State (self s) (add_call c (env s))) [c].
Proof. unfold extends, same_config; cbn. tauto. Qed.

Lemma extends_add_record s r :
  extends s (State (self s) (add_record r (env s))) [].
Proof. unfold extends, same_config; cbn. rewrite app_nil_r. tauto. Qed.

Lemma call_of_extends s s' cs method url kw :
  extends s s' cs -> call_of s' method url kw = call_of s method url kw.
Proof.
  intros [(_ & E2 & E3 & _) _]. unfold call_of. now rewrite E2, E3.
Qed.

Lemma do_request_eq method url kw s :
  do_request method url kw s =
    (requests_request (call_of s method url kw) (length (calls (env s))),
     State (self s) (add_call (call_of s method url kw) (env s))).
Proof.
  unfold do_request. fold (call_of s method url kw).
  now destruct (requests_request _ _).
Qed.

(** Logging an exception when [log] is set: no call, nothing raised. *)
Lemma log_exception_runs (log : bool) e s :
  exists s',
    (if log then l ← logger; emit (LogException (ClientLogger l) e)
     else mret tt) s = (Return tt, s') /\ extends s s' [].
Proof.
  destruct log.
  - destruct (logger_runs s) as (l & s1 & E & X & _).
    run_m. rewrite E. eexists; split; [reflexivity|].
    exact (extends_trans _ _ _ [] [] X (extends_add_record s1 _)).
  - exists s. split; [reflexivity | apply extends_refl].
Qed.

(** The handler of the retry loop on an exception that is not a
    [ReadTimeout]: the same exception leaves it. *)
Lemma reraise_runs method url kw (log : bool) a e s s0 c :
  is_ReadTimeout e = false ->
  extends s0 s c ->
  exists s',
    on_failure method url kw log a e s = (Raise e, s') /\ extends s0 s' c.
Proof.
  intros NT X. unfold on_failure. rewrite NT. destruct (is_Exception e).
  - destruct (log_exception_runs log e s) as (s1 & E & X1).
    unfold mbind at 1, M_bind at 1. rewrite E. unfold raise.
    eexists; split; [reflexivity|].
    pose proof (extends_trans _ _ _ _ _ X X1) as X2.
    now rewrite app_nil_r in X2.
  - unfold raise. eexists; split; [reflexivity | exact X].
Qed.

Lemma attempt_timeout_retry method url kw log a s e :
  requests_request (call_of s method url kw) (length (calls (env s))) = Raise e ->
  is_ReadTimeout e = true ->
  a < _max_retries (self s) ->
  exists s',
    attempt_body method url kw log a s = (Return Continue, s') /\
    extends s s' [call_of s method url kw].
Proof.
  intros E T L. unfold attempt_body, try_except, try_block, on_failure.
  unfold mbind at 1, M_bind at 1. rewrite do_request_eq, E, T.
  run_m. cbn [self].
  destruct (Z.geb_spec a (_max_retries (self s))); [lia|].
  eexists; split; [reflexivity|].
  unfold extends, same_config; cbn. tauto.
Qed.

Lemma attempt_timeout_last method url kw log a s e :
  requests_request (call_of s method url kw) (length (calls (env s))) = Raise e ->
  is_ReadTimeout e = true ->
  _max_retries (self s) <= a ->
  exists s',
    attempt_body method url kw log a s =
      (Raise (Exn TimeoutError
                ("Reached max retries (" +:+ str_int (_max_retries (self s))
                   +:+ ") for " +:+ method +:+ " " +:+ url +:+ " "
                   +:+ repr_kwargs kw) None (Some e)), s') /\
    extends s s' [call_of s method url kw].
Proof.
  intros E T L. unfold attempt_body, try_except, try_block, on_failure.
  unfold mbind at 1, M_bind at 1. rewrite do_request_eq, E, T.
  run_m. cbn [self].
  destruct (Z.geb_spec a (_max_retries (self s))); [|lia].
  eexists; split; [reflexivity|].
  unfold extends, same_config; cbn. tauto.
Qed.

Lemma attempt_other_failure method url kw log a s e :
  requests_request (call_of s method url kw) (length (calls (env s))) = Raise e ->
  is_ReadTimeout e = false ->
  exists s',
    attempt_body method url kw log a s = (Raise e, s') /\
    extends s s' [call_of s method url kw].
Proof.
  intros E T. unfold attempt_body, try_except, try_block.
  unfold mbind at 1, M_bind at 1. rewrite do_request_eq, E.
  apply reraise_runs; [exact T | apply extends_add_call].
Qed.

Lemma process_success response result v s :
  raise_for_status response = None -> json response = inr v ->
  _process_response response result s =
    (Return (mkResult v (request_ result)), s).
Proof.
  intros E1 E2. unfold _process_response, try_except. now rewrite E1, E2.
Qed.

Lemma process_fatal response result e s :
  processing_raises response e ->
  is_Timeout e = false -> is_Exception e = true ->
  _process_response response result s =
    (Raise (Exn ExternalBrokerError (response_error_msg response result)
              (Some (status_code response)) (Some e)), s).
Proof.
  intros [E1 | [E1 E2]] T X; unfold _process_response, try_except;
    rewrite E1; [|rewrite E2]; unfold raise; now rewrite T, X.
Qed.

Lemma attempt_success method url kw log a s response v :
  requests_request (call_of s method url kw) (length (calls (env s)))
    = Return response ->
  raise_for_status response = None -> json response = inr v ->
  attempt_body method url kw log a s =
    (Return (Returns (mkResult v (request_dict url kw))),
     State (self s) (add_call (call_of s method url kw) (env s))).
Proof.
  intros E E1 E2. unfold attempt_body, try_except, try_block.
  unfold mbind at 1, M_bind at 1. rewrite do_request_eq, E.
  unfold mbind, M_bind. now rewrite (process_success _ _ v).
Qed.

Lemma attempt_fatal method url kw log a s response e :
  requests_request (call_of s method url kw) (length (calls (env s)))
    = Return response ->
  processing_raises response e ->
  is_Timeout e = false -> is_Exception e = true ->
  exists s',
    attempt_body method url kw log a s =
      (Raise (Exn ExternalBrokerError
                (response_error_msg response
                   (Result_of_request (request_dict url kw)))
                (Some (status_code response)) (Some e)), s') /\
    extends s s' [call_of s method url kw].
Proof.
  intros E P T X. unfold attempt_body, try_except, try_block.
  unfold mbind at 1, M_bind at 1. rewrite do_request_eq, E.
  unfold mbind, M_bind. rewrite (process_fatal _ _ e) by assumption.
  apply reraise_runs; [reflexivity | apply extends_add_call].
Qed.

(** *** The loop *)

Lemma replicate_cons_app {A : Type} (x : A) (k : nat) :
  [x] ++ replicate k x = replicate (S k) x.
Proof. reflexivity. Qed.

(** [k] attempts in a row that time out, none of them the last allowed one:
    the loop goes on after [k] calls. *)
Lemma timeouts_then method url kw log (k : nat) :
  forall (a : nat) (s : state) (rest : list Z),
    Z.of_nat (a + k) <= _max_retries (self s) ->
    (forall j, (j < k)%nat ->
       exists e,
         requests_request (call_of s method url kw)
           (length (calls (env s)) + j) = Raise e /\
         is_ReadTimeout e = true) ->
    exists s',
      for_in (List.map Z.of_nat (seq a k) ++ rest)
        (attempt_body method url kw log) s
      = for_in rest (attempt_body method url kw log) s' /\
      extends s s' (replicate k (call_of s method url kw)).
Proof.
  induction k as [|k IH]; intros a s rest B T.
  - exists s. split; [reflexivity | apply extends_refl].
  - destruct (T 0%nat) as (e & E & RT); [lia|].
    rewrite Nat.add_0_r in E.
    destruct (attempt_timeout_retry method url kw log (Z.of_nat a) s e E RT)
      as (s1 & A1 & X1); [lia|].
    cbn [seq List.map app for_in]. unfold mbind at 1, M_bind at 1.
    rewrite A1.
    destruct (IH (S a) s1 rest) as (s2 & A2 & X2).
    + destruct X1 as [(_ & _ & _ & M1) _]. rewrite M1. lia.
    + intros j Hj. destruct (T (S j)) as (e' & E' & RT'); [lia|].
      exists e'. split; [|exact RT'].
      rewrite (call_of_extends _ _ _ _ _ _ X1).
      destruct X1 as [_ C1]. rewrite C1, length_app. cbn [length].
      now replace (length (calls (env s)) + 1 + j)%nat
        with (length (calls (env s)) + S j)%nat by lia.
    + exists s2. split; [exact A2|].
      rewrite (call_of_extends _ _ _ _ _ _ X1) in X2.
      pose proof (extends_trans _ _ _ _ _ X1 X2) as X3.
      now rewrite replicate_cons_app in X3.
Qed.

Lemma range_split (N : Z) (k : nat) :
  Z.of_nat k <= N ->
  range (N + 1) =
    List.map Z.of_nat (seq 0 k) ++
    Z.of_nat k :: List.map Z.of_nat (seq (S k) (Z.to_nat N - k)).
Proof.
  intros L. unfold range.
  replace (Z.to_nat (N + 1)) with (k + S (Z.to_nat N - k))%nat by lia.
  now rewrite seq_app, List.map_app.
Qed.

Lemma range_nonpositive (n : Z) : n <= 0 -> range n = [].
Proof.
  intros L. unfold range. now replace (Z.to_nat n) with 0%nat by lia.
Qed.

(** The lines before the loop: no call, nothing raised. *)
Lemma request_unfold method endpoint attempt log kw s :
  exists s1,
    extends s s1 [] /\
    request method endpoint attempt log kw s =
      for_in (range (_max_retries (self s) + 1))
        (attempt_body method (base_url (self s) +:+ endpoint)
           (filter_none kw) log) s1.
Proof.
  unfold request. destruct log.
  - destruct (logger_runs s) as (l & s1 & E & X & _).
    eexists. split; cycle 1.
    + run_m. cbn [self]. rewrite E. cbn [self].
      destruct X as [(_ & _ & _ & M1) _]. rewrite M1. reflexivity.
    + exact (extends_trans _ _ _ [] [] X (extends_add_record s1 _)).
  - exists s. split; [apply extends_refl | reflexivity].
Qed.

(** The state in which the loop of [request] runs its [k]-th iteration after
    [k] timeouts. *)
Lemma request_after_timeouts method endpoint attempt log kw s (k : nat) :
  Z.of_nat k <= _max_retries (self s) ->
  (forall j, (j < k)%nat ->
     times_out (request_call s method endpoint kw)
       (length (calls (env s)) + j)) ->
  exists s1,
    extends s s1 (replicate k (request_call s method endpoint kw)) /\
    request method endpoint attempt log kw s =
      for_in (Z.of_nat k ::
                List.map Z.of_nat
                  (seq (S k) (Z.to_nat (_max_retries (self s)) - k)))
        (attempt_body method (resolved_url s endpoint) (filter_none kw) log)
        s1.
Proof.
  intros B T.
  destruct (request_unfold method endpoint attempt log kw s) as (s0 & X0 & E0).
  rewrite E0, (range_split _ k B). fold (resolved_url s endpoint).
  destruct (timeouts_then method (resolved_url s endpoint) (filter_none kw)
              log k 0%nat s0
              (Z.of_nat k ::
                 List.map Z.of_nat
                   (seq (S k) (Z.to_nat (_max_retries (self s)) - k))))
    as (s1 & E1 & X1).
  - destruct X0 as [(_ & _ & _ & M0) _]. rewrite M0. lia.
  - intros j Hj. rewrite (call_of_extends _ _ _ _ _ _ X0).
    destruct X0 as [_ C0]. rewrite C0, app_nil_r. exact (T j Hj).
  - exists s1. split; [|exact E1].
    rewrite (call_of_extends _ _ _ _ _ _ X0) in X1.
    exact (extends_trans _ _ _ [] _ X0 X1).
Qed.

Lemma length_after s s1 c (k : nat) :
  extends s s1 (replicate k c) ->
  length (calls (env s1)) = (length (calls (env s)) + k)%nat.
Proof. intros [_ C]. now rewrite C, length_app, length_replicate. Qed.

Lemma replicate_snoc {A : Type} (x : A) (k : nat) :
  replicate k x ++ [x] = replicate (k + 1) x.
Proof. now rewrite replicate_add. Qed.

Ltac finish_calls X1 X2 :=
  let X3 := fresh in
  pose proof (extends_trans _ _ _ _ _ X1 X2) as X3;
  rewrite replicate_snoc in X3; exact (proj2 X3).

(** C1.  With [max_retries = N >= 0] and a transport call that raises a
    read timeout on each of the attempts, [request] evaluates exactly [N + 1]
    transport calls and then raises a [TimeoutError] whose message names the
    retry budget, the verb, the URL and the arguments, and whose cause is the
    timeout of the last attempt. *)
Theorem request_retries_exhausted method endpoint attempt log kw s
    (N : nat) (failure : nat -> exn) :
  _max_retries (self s) = Z.of_nat N ->
  (forall j, (j <= N)%nat ->
     requests_request (request_call s method endpoint kw)
       (length (calls (env s)) + j) = Raise (failure j) /\
     is_ReadTimeout (failure j) = true) ->
  exists s',
    request method endpoint attempt log kw s =
      (Raise (Exn TimeoutError
                ("Reached max retries (" +:+ str_int (Z.of_nat N)
                   +:+ ") for " +:+ method +:+ " "
                   +:+ resolved_url s endpoint +:+ " "
                   +:+ repr_kwargs (filter_none kw))
                None (Some (failure N))), s') /\
    calls (env s') =
      calls (env s) ++ replicate (N + 1) (request_call s method endpoint kw).
Proof.
  intros MR T.
  destruct (request_after_timeouts method endpoint attempt log kw s N)
    as (s1 & X1 & E1).
  - lia.
  - intros j Hj. exists (failure j). apply T. lia.
  - destruct (T N) as [EN RT]; [lia|].
    destruct (attempt_timeout_last method (resolved_url s endpoint)
                (filter_none kw) log (Z.of_nat N) s1 (failure N))
      as (s2 & A2 & X2).
    + rewrite (call_of_extends _ _ _ _ _ _ X1), (length_after _ _ _ _ X1).
      exact EN.
    + exact RT.
    + destruct X1 as [(_ & _ & _ & M1) _]. rewrite M1. lia.
    + exists s2. split.
      * rewrite E1. cbn [for_in]. unfold mbind at 1, M_bind at 1.
        rewrite A2. destruct X1 as [(_ & _ & _ & M1) _].
        now rewrite M1, MR.
      * rewrite (call_of_extends _ _ _ _ _ _ X1) in X2. finish_calls X1 X2.
Qed.

(** C2.  When the transport call of attempt [k] (after [k] timeouts, [k]
    possibly 0) raises an exception that is not a read timeout, [request]
    raises that same exception and evaluates no further transport call: the
    calls made are the [k + 1] so far, one when [k = 0], whatever
    [max_retries] is. *)
Theorem request_other_failure_not_retried method endpoint attempt log kw s
    (k : nat) (e : exn) :
  Z.of_nat k <= _max_retries (self s) ->
  (forall j, (j < k)%nat ->
     times_out (request_call s method endpoint kw)
       (length (calls (env s)) + j)) ->
  requests_request (request_call s method endpoint kw)
    (length (calls (env s)) + k) = Raise e ->
  is_ReadTimeout e = false ->
  exists s',
    request method endpoint attempt log kw s = (Raise e, s') /\
    calls (env s') =
      calls (env s) ++ replicate (k + 1) (request_call s method endpoint kw).
Proof.
  intros B T E NT.
  destruct (request_after_timeouts method endpoint attempt log kw s k B T)
    as (s1 & X1 & E1).
  destruct (attempt_other_failure method (resolved_url s endpoint)
              (filter_none kw) log (Z.of_nat k) s1 e) as (s2 & A2 & X2).
  - rewrite (call_of_extends _ _ _ _ _ _ X1), (length_after _ _ _ _ X1).
    exact E.
  - exact NT.
  - exists s2. split.
    + rewrite E1. cbn [for_in]. unfold mbind at 1, M_bind at 1.
      now rewrite A2.
    + rewrite (call_of_extends _ _ _ _ _ _ X1) in X2. finish_calls X1 X2.
Qed.

(** C3.  When the transport returns a response whose [raise_for_status]
    raises an [HTTPError] (a non-success status), [request] raises an
    [ExternalBrokerError] with the status code of the response, whose message
    carries the status code, the reason and the body and whose cause is the
    [HTTPError]; no further transport call is evaluated: exactly one when the
    response comes at the first attempt, whatever [max_retries] is. *)
Theorem request_fatal_status_not_retried method endpoint attempt log kw s
    (k : nat) (response : Response) (e : exn) :
  Z.of_nat k <= _max_retries (self s) ->
  (forall j, (j < k)%nat ->
     times_out (request_call s method endpoint kw)
       (length (calls (env s)) + j)) ->
  requests_request (request_call s method endpoint kw)
    (length (calls (env s)) + k) = Return response ->
  raise_for_status response = Some e ->
  exn_class_of e = HTTPError ->
  exists s',
    request method endpoint attempt log kw s =
      (Raise (Exn ExternalBrokerError
                ("IbkrClient response error "
                   +:+ repr_Result
                         (Result_of_request
                            (request_dict (resolved_url s endpoint)
                               (filter_none kw)))
                   +:+ " :: " +:+ str_int (status_code response)
                   +:+ " :: " +:+ reason response
                   +:+ " :: " +:+ text response)
                (Some (status_code response)) (Some e)), s') /\
    calls (env s') =
      calls (env s) ++ replicate (k + 1) (request_call s method endpoint kw).
Proof.
  intros B T E RS HE.
  destruct (request_after_timeouts method endpoint attempt log kw s k B T)
    as (s1 & X1 & E1).
  destruct (attempt_fatal method (resolved_url s endpoint)
              (filter_none kw) log (Z.of_nat k) s1 response e)
    as (s2 & A2 & X2).
  - rewrite (call_of_extends _ _ _ _ _ _ X1), (length_after _ _ _ _ X1).
    exact E.
  - left; exact RS.
  - unfold is_Timeout. now rewrite HE.
  - unfold is_Exception. now rewrite HE.
  - exists s2. split.
    + rewrite E1. cbn [for_in]. unfold mbind at 1, M_bind at 1.
      now rewrite A2.
    + rewrite (call_of_extends _ _ _ _ _ _ X1) in X2. finish_calls X1 X2.
Qed.

(** A call that returns a response passed no argument twice. *)
Lemma returned_no_duplicate c n response key :
  requests_request c n = Return response ->
  key ∈ bound_names -> call_kwargs c !! key = None.
Proof.
  unfold requests_request, duplicate_argument.
  destruct (List.find _ bound_names) as [k|] eqn:F; [discriminate|].
  intros _ I. pose proof (find_none _ _ F key) as N.
  apply list_elem_of_In in I. specialize (N I).
  apply bool_decide_eq_false in N.
  destruct (call_kwargs c !! key) eqn:L; [|reflexivity].
  exfalso. apply N. now exists v.
Qed.

(** C4.  When the transport call of attempt [k] returns a response with a
    success status and a parsable body, [request] returns at once, after
    [k + 1] transport calls, a [Result] whose [data] is the parsed body of
    that response and whose [request] is [{'url': url, **kwargs}]: it holds
    the resolved URL under [url] and every filtered keyword argument. *)
Theorem request_success_short_circuits method endpoint attempt log kw s
    (k : nat) (response : Response) (body : value) :
  Z.of_nat k <= _max_retries (self s) ->
  (forall j, (j < k)%nat ->
     times_out (request_call s method endpoint kw)
       (length (calls (env s)) + j)) ->
  requests_request (request_call s method endpoint kw)
    (length (calls (env s)) + k) = Return response ->
  raise_for_status response = None ->
  json response = inr body ->
  exists (r : Result) s',
    request method endpoint attempt log kw s = (Return (Some r), s') /\
    calls (env s') =
      calls (env s) ++ replicate (k + 1) (request_call s method endpoint kw) /\
    data r = body /\
    request_ r = request_dict (resolved_url s endpoint) (filter_none kw) /\
    request_ r !! "url" = Some (VStr (resolved_url s endpoint)) /\
    (forall key v, filter_none kw !! key = Some v -> request_ r !! key = Some v).
Proof.
  intros B T E RS J.
  destruct (request_after_timeouts method endpoint attempt log kw s k B T)
    as (s1 & X1 & E1).
  pose proof (attempt_success method (resolved_url s endpoint)
                (filter_none kw) log (Z.of_nat k) s1 response body) as A2.
  rewrite (call_of_extends _ _ _ _ _ _ X1), (length_after _ _ _ _ X1) in A2.
  specialize (A2 E RS J).
  eexists _, _. split; [|split; [|split; [|split; [|split]]]].
  - rewrite E1. cbn [for_in]. unfold mbind at 1, M_bind at 1.
    rewrite A2. reflexivity.
  - cbn [env]. unfold add_call; cbn [calls].
    destruct X1 as [_ C1]. now rewrite C1, <- app_assoc, replicate_snoc.
  - reflexivity.
  - reflexivity.
  - cbn [request_]. unfold request_dict.
    rewrite lookup_union_r.
    + apply lookup_singleton_eq.
    + apply (returned_no_duplicate _ _ _ "url" E). unfold bound_names.
      set_solver.
  - intros key v L. cbn [request_]. unfold request_dict.
    now apply lookup_union_Some_l.
Qed.

Lemma request_skips_loop method endpoint attempt log kw s :
  _max_retries (self s) < 0 ->
  exists s',
    request method endpoint attempt log kw s = (Return None, s') /\
    calls (env s') = calls (env s).
Proof.
  intros Neg.
  destruct (request_unfold method endpoint attempt log kw s) as (s0 & X0 & E0).
  exists s0. rewrite E0, range_nonpositive by lia.
  split; [reflexivity|]. destruct X0 as [_ C0]. now rewrite C0, app_nil_r.
Qed.

(** *** Every run of [request] *)

Lemma on_failure_runs method url kw log a e s :
  exists s', extends s s' [] /\
    snd (on_failure method url kw log a e s) = s'.
Proof.
  unfold on_failure. destruct (is_ReadTimeout e).
  - run_m. cbn [self]. destruct (a >=? _max_retries (self s))%Z.
    + exists s. split; [apply extends_refl | reflexivity].
    + eexists. split; [|reflexivity]. apply extends_add_record.
  - destruct (is_Exception e).
    + destruct (log_exception_runs log e s) as (s1 & E & X1).
      unfold mbind at 1, M_bind at 1. rewrite E.
      exists s1. split; [exact X1 | reflexivity].
    + exists s. split; [apply extends_refl | reflexivity].
Qed.

Lemma process_response_state response result s :
  snd (_process_response response result s) = s.
Proof.
  unfold _process_response, try_except, raise.
  destruct (raise_for_status response) as [e|].
  - destruct (is_Timeout e); [reflexivity|]. now destruct (is_Exception e).
  - destruct (json response) as [e|v]; [|reflexivity].
    destruct (is_Timeout e); [reflexivity|]. now destruct (is_Exception e).
Qed.

(** One iteration evaluates one transport call, however it ends. *)
Lemma attempt_runs method url kw log a s :
  extends s (snd (attempt_body method url kw log a s))
    [call_of s method url kw].
Proof.
  unfold attempt_body, try_except, try_block.
  unfold mbind at 1, M_bind at 1. rewrite do_request_eq.
  set (s1 := State (self s) (add_call (call_of s method url kw) (env s))).
  assert (X1 : extends s s1 [call_of s method url kw])
    by apply extends_add_call.
  assert (F : forall e s2, s2 = s1 ->
            extends s (snd (on_failure method url kw log a e s2))
              [call_of s method url kw]).
  { intros e s2 ->. destruct (on_failure_runs method url kw log a e s1)
      as (s3 & X3 & E3). rewrite E3.
    pose proof (extends_trans _ _ _ _ _ X1 X3) as X. now rewrite app_nil_r in X. }
  destruct (requests_request _ _) as [response|e]; [|now apply F].
  unfold mbind, M_bind.
  pose proof (process_response_state response
                (Result_of_request (request_dict url kw)) s1) as P.
  destruct (_process_response _ _ s1) as [[r|e] s2]; cbn [snd] in P |- *.
  - now subst s2.
  - now apply F.
Qed.

Lemma for_in_runs method url kw log (xs : list Z) :
  forall s, exists n : nat,
    (n <= length xs)%nat /\
    extends s (snd (for_in xs (attempt_body method url kw log) s))
      (replicate n (call_of s method url kw)).
Proof.
  induction xs as [|x xs IH]; intros s.
  - exists 0%nat. split; [lia | apply extends_refl].
  - cbn [for_in]. unfold mbind, M_bind.
    pose proof (attempt_runs method url kw log x s) as X1.
    destruct (attempt_body method url kw log x s) as [[[|r]|e] s1];
      cbn [snd] in X1 |- *.
    + destruct (IH s1) as (n & Hn & X2).
      exists (S n). split; [cbn [length]; lia|].
      rewrite (call_of_extends _ _ _ _ _ _ X1) in X2.
      exact (extends_trans _ _ _ _ _ X1 X2).
    + exists 1%nat. split; [cbn [length]; lia | exact X1].
    + exists 1%nat. split; [cbn [length]; lia | exact X1].
Qed.

(** Whatever the transport does, [request] evaluates at most
    [max_retries + 1] transport calls, all of them the same call. *)
Lemma request_runs method endpoint attempt log kw s :
  exists n : nat,
    (n <= Z.to_nat (_max_retries (self s) + 1))%nat /\
    calls (env (snd (request method endpoint attempt log kw s))) =
      calls (env s) ++ replicate n (request_call s method endpoint kw).
Proof.
  destruct (request_unfold method endpoint attempt log kw s) as (s0 & X0 & E0).
  rewrite E0.
  destruct (for_in_runs method (resolved_url s endpoint) (filter_none kw) log
              (range (_max_retries (self s) + 1)) s0) as (n & Hn & X1).
  exists n. split.
  - unfold range in Hn. now rewrite length_map, length_seq in Hn.
  - rewrite (call_of_extends _ _ _ _ _ _ X0) in X1.
    exact (proj2 (extends_trans _ _ _ [] _ X0 X1)).
Qed.

(** One iteration at least evaluates one transport call. *)
Lemma for_in_runs_pos method url kw log (x : Z) (xs : list Z) s :
  exists n : nat,
    (1 <= n <= S (length xs))%nat /\
    extends s (snd (for_in (x :: xs) (attempt_body method url kw log) s))
      (replicate n (call_of s method url kw)).
Proof.
  cbn [for_in]. unfold mbind, M_bind.
  pose proof (attempt_runs method url kw log x s) as X1.
  destruct (attempt_body method url kw log x s) as [[[|r]|e] s1];
    cbn [snd] in X1 |- *.
  - destruct (for_in_runs method url kw log xs s1) as (n & Hn & X2).
    exists (S n). split; [lia|].
    rewrite (call_of_extends _ _ _ _ _ _ X1) in X2.
    exact (extends_trans _ _ _ _ _ X1 X2).
  - exists 1%nat. split; [lia | exact X1].
  - exists 1%nat. split; [lia | exact X1].
Qed.

(** With [max_retries >= 0], [request] evaluates at least one and at most
    [max_retries + 1] transport calls, whatever the transport does, and each
    of them is the call with the filtered keyword arguments. *)
Lemma request_runs_pos method endpoint attempt log kw s :
  0 <= _max_retries (self s) ->
  exists n : nat,
    (1 <= n)%nat /\ Z.of_nat n <= _max_retries (self s) + 1 /\
    calls (env (snd (request method endpoint attempt log kw s))) =
      calls (env s) ++ replicate n (request_call s method endpoint kw).
Proof.
  intros B.
  destruct (request_unfold method endpoint attempt log kw s) as (s0 & X0 & E0).
  rewrite E0, (range_split _ 0) by (cbn; lia).
  cbn [seq List.map app].
  destruct (for_in_runs_pos method (resolved_url s endpoint) (filter_none kw)
              log (Z.of_nat 0)
              (List.map Z.of_nat
                 (seq 1 (Z.to_nat (_max_retries (self s)) - 0))) s0)
    as (n & Hn & X1).
  exists n. split; [lia|]. split.
  - rewrite length_map, length_seq in Hn. lia.
  - rewrite (call_of_extends _ _ _ _ _ _ X0) in X1.
    exact (proj2 (extends_trans _ _ _ [] _ X0 X1)).
Qed.

(** C10.  On a client whose stored [max_retries] is negative, [request], and
    with it [get], [post] and [delete], evaluates no transport call, raises
    nothing and returns [None]. *)
Theorem negative_max_retries_returns_None method endpoint attempt log kw
    path params s :
  _max_retries (self s) < 0 ->
  (exists s', request method endpoint attempt log kw s = (Return None, s') /\
              calls (env s') = calls (env s)) /\
  (exists s', get path params log s = (Return None, s') /\
              calls (env s') = calls (env s)) /\
  (exists s', post path params log s = (Return None, s') /\
              calls (env s') = calls (env s)) /\
  (exists s', delete path params log s = (Return None, s') /\
              calls (env s') = calls (env s)).
Proof.
  intros Neg. unfold get, post, delete.
  repeat split; apply request_skips_loop; exact Neg.
Qed.

(** *** The filter *)




(** *** Construction and the logger *)

Lemma init_succeeds u ca t mr w :
  cacert_valid ca ->
  __init__ (Some u) ca t mr w =
    (Return
       (mkRestClient (if endswith_slash u then u else u +:+ "/") ca t mr
          (Some (new_daily_rotating_file_handler "RestClient"
                   (os_path_join LOGS_DIR "rest_client") (handlers_made w)))),
     add_handler w).
Proof.
  intros [-> | (p & -> & E)]; unfold __init__; cbn [is_False Path_exists];
    [|rewrite E]; reflexivity.
Qed.

(** C7, amended.  [__init__] does not look at [max_retries]: with a URL and
    a valid [cacert] it returns a client that stores the value as given,
    negative or not, and evaluates no transport call. *)
Theorem init_stores_max_retries_verbatim u ca t (mr : Z) w :
  cacert_valid ca ->
  exists c w',
    __init__ (Some u) ca t mr w = (Return c, w') /\
    _max_retries c = mr /\ _timeout c = t /\ calls w' = calls w.
Proof.
  intros V. rewrite (init_succeeds u ca t mr w V).
  eexists _, _. split; [reflexivity|]. now cbn.
Qed.

(** C8.  With a [cacert] that is a path that does not exist, [__init__]
    raises a [ValueError] and leaves the world as it was, so no client is
    there to send a request; with [False] or an existing path (and a URL)
    the check passes and the client is built. *)
Theorem init_checks_cacert (url : option string) p t mr w :
  (path_exists p = false ->
   exists e, __init__ url (CaPath p) t mr w = (Raise e, w) /\
             exn_class_of e = ValueError) /\
  (forall u ca, cacert_valid ca ->
     exists c w', __init__ (Some u) ca t mr w = (Return c, w') /\
                  cacert c = ca).
Proof.
  split.
  - intros E. unfold __init__. destruct url as [u|].
    + cbn [is_False Path_exists]. rewrite E. eexists. split; reflexivity.
    + eexists. split; reflexivity.
  - intros u ca V. rewrite (init_succeeds u ca t mr w V).
    eexists _, _. split; reflexivity.
Qed.

(** C9, amended.  A successful [__init__] has created the sink and stored
    it; an access to [logger] on a client that holds a sink returns it and
    changes nothing; an access on a client whose attribute is not set
    creates a sink, stores it and returns it, and the next access returns
    the same one. *)
Theorem logger_lifecycle :
  (forall url ca t mr w c w',
     __init__ url ca t mr w = (Return c, w') ->
     _logger c =
       Some (new_daily_rotating_file_handler "RestClient"
               (os_path_join LOGS_DIR "rest_client") (handlers_made w)) /\
     handlers_made w' = S (handlers_made w)) /\
  (forall s l, _logger (self s) = Some l -> logger s = (Return l, s)) /\
  (forall s, _logger (self s) = None ->
     exists l s',
       logger s = (Return l, s') /\
       _logger (self s') = Some l /\
       handlers_made (env s') = S (handlers_made (env s)) /\
       logger s' = (Return l, s')).
Proof.
  split; [|split].
  - intros url ca t mr w c w'. unfold __init__.
    destruct url as [u|]; [|discriminate].
    destruct (if is_False ca then Return true else Path_exists ca)
      as [[|]|e]; [|discriminate|discriminate].
    cbn. intros [= <- <-]. split; reflexivity.
  - intros s l E. unfold logger, get__logger, try_except. now rewrite E.
  - intros s E. unfold logger, get__logger, try_except. rewrite E.
    cbn. eexists _, _. repeat split.
Qed.

End ClientFacts.

(** ** The properties at concrete inputs *)

Lemma request_retries_exhausted_witness :
  exists s',
    request "GET" "orders" 0 true {[ "params" := VNone ]}
      (example_state always_times_out 2) =
      (Raise (Exn TimeoutError
                "Reached max retries (2) for GET https://api.test/orders {'params': None}"
                None (Some (read_timeout 2))), s') /\
    length (calls (env s')) = 3%nat.
Proof.
  destruct (request_retries_exhausted (H := example_env always_times_out)
              "GET" "orders" 0 true {[ "params" := VNone ]}
              (example_state always_times_out 2) 2 read_timeout)
    as (s' & E & C).
  - reflexivity.
  - intros j _. split; reflexivity.
  - exists s'. split; [exact E|]. rewrite C. reflexivity.
Defined.

Lemma request_other_failure_not_retried_witness :
  exists s',
    request "POST" "orders" 0 true {[ "json" := VDict [("qty", VInt 1)] ]}
      (example_state always_refused 3) = (Raise connection_refused, s') /\
    length (calls (env s')) = 1%nat.
Proof.
  destruct (request_other_failure_not_retried
              (H := example_env always_refused)
              "POST" "orders" 0 true {[ "json" := VDict [("qty", VInt 1)] ]}
              (example_state always_refused 3) 0 connection_refused)
    as (s' & E & C).
  - cbn. lia.
  - intros j Hj. lia.
  - reflexivity.
  - reflexivity.
  - exists s'. split; [exact E|]. rewrite C. reflexivity.
Defined.

Lemma request_fatal_status_not_retried_witness :
  exists e s',
    request "GET" "orders" 0 true {[ "params" := VNone ]}
      (example_state always_not_found 3) = (Raise e, s') /\
    exn_class_of e = ExternalBrokerError /\
    exn_status_code e = Some 404 /\
    exn_msg e =
      "IbkrClient response error Result(data=None, request={'url': 'https://api.test/orders', 'params': None}) :: 404 :: Not Found :: not found" /\
    length (calls (env s')) = 1%nat.
Proof.
  destruct (request_fatal_status_not_retried
              (H := example_env always_not_found)
              "GET" "orders" 0 true {[ "params" := VNone ]}
              (example_state always_not_found 3) 0 not_found_response
              (Exn HTTPError "404 Client Error: Not Found" None None))
    as (s' & E & C).
  - cbn. lia.
  - intros j Hj. lia.
  - reflexivity.
  - reflexivity.
  - reflexivity.
  - eexists _, s'. split; [exact E|]. rewrite C.
    repeat split; reflexivity.
Defined.

Lemma request_success_short_circuits_witness :
  exists r s',
    request "GET" "orders" 0 true {[ "params" := VNone ]}
      (example_state third_time_lucky 3) = (Return (Some r), s') /\
    length (calls (env s')) = 3%nat /\
    data r = VDict [("status", VStr "ok")] /\
    request_ r !! "url" = Some (VStr "https://api.test/orders") /\
    request_ r !! "params" = Some VNone.
Proof.
  destruct (request_success_short_circuits
              (H := example_env third_time_lucky)
              "GET" "orders" 0 true {[ "params" := VNone ]}
              (example_state third_time_lucky 3) 2 ok_response
              (VDict [("status", VStr "ok")]))
    as (r & s' & E & C & D & _ & U & K).
  - cbn. lia.
  - intros j Hj. exists (read_timeout j).
    destruct j as [|[|j]]; [split; reflexivity | split; reflexivity | lia].
  - reflexivity.
  - reflexivity.
  - reflexivity.
  - exists r, s'. split; [exact E|]. rewrite C.
    split; [reflexivity|]. split; [exact D|]. split; [exact U|].
    apply K. reflexivity.
Defined.

Lemma negative_max_retries_returns_None_witness :
  exists s',
    get "orders" VNone true (example_state always_times_out (-1)) =
      (Return None, s') /\
    calls (env s') = [].
Proof.
  destruct (negative_max_retries_returns_None
              (H := example_env always_times_out)
              "GET" "orders" 0 true ∅ "orders" VNone
              (example_state always_times_out (-1)))
    as (_ & G & _).
  - cbn. lia.
  - exact G.
Defined.



Lemma init_stores_max_retries_verbatim_witness :
  exists c w',
    example_init always_times_out (CaBool false) (-1) = (Return c, w') /\
    _max_retries c = -1 /\ _timeout c = 10 /\ calls w' = [].
Proof.
  apply (init_stores_max_retries_verbatim (H := example_env always_times_out)
           "https://api.test" (CaBool false) (10 : Z) (-1)
           (new_world always_times_out)).
  left. reflexivity.
Defined.

(** C7 as stated fails: a client with [max_retries = -1] is built. *)
Lemma negative_max_retries_is_accepted :
  (exists c w',
     example_init always_times_out (CaBool false) (-1) = (Return c, w') /\
     _max_retries c = -1) /\
  ~ (exists e w',
       example_init always_times_out (CaBool false) (-1) = (Raise e, w')).
Proof.
  split.
  - eexists _, _. split; reflexivity.
  - intros (e & w' & E). discriminate E.
Qed.

Lemma init_checks_cacert_witness :
  (exists e,
     example_init always_times_out (CaPath "/no/such/ca.pem") 3 = (Raise e, new_world always_times_out) /\
     exn_class_of e = ValueError) /\
  (exists c w',
     example_init always_times_out (CaPath "/etc/ssl/ca.pem") 3 = (Return c, w') /\
     cacert c = CaPath "/etc/ssl/ca.pem") /\
  (exists c w',
     example_init always_times_out (CaBool false) 3 = (Return c, w') /\
     cacert c = CaBool false).
Proof.
  destruct (init_checks_cacert (H := example_env always_times_out)
              (Some "https://api.test") "/no/such/ca.pem" (10 : Z) 3
              (new_world always_times_out)) as [Missing Valid].
  split; [|split].
  - apply Missing. reflexivity.
  - apply Valid. right. exists "/etc/ssl/ca.pem". split; reflexivity.
  - apply Valid. left. reflexivity.
Defined.

(** C9 as stated fails: construction has created the sink. *)
Lemma construction_creates_the_sink :
  exists c w',
    example_init always_times_out (CaBool false) 3 = (Return c, w') /\
    handlers_made (new_world always_times_out) = 0%nat /\
    handlers_made w' = 1%nat /\
    _logger c = Some 0%nat.
Proof. eexists _, _. repeat split. Qed.

Lemma logger_lifecycle_witness :
  (exists c w',
     example_init always_times_out (CaBool false) 3 = (Return c, w') /\
     _logger c = Some 0%nat /\ handlers_made w' = 1%nat) /\
  logger (example_state always_times_out 3) =
    (Return 0%nat, example_state always_times_out 3) /\
  (exists l s',
     logger (example_state_without_sink always_times_out 3) = (Return l, s') /\
     _logger (self s') = Some l /\ logger s' = (Return l, s')).
Proof.
  destruct (logger_lifecycle (H := example_env always_times_out))
    as (Init & Held & Unset).
  split; [|split].
  - eexists _, _. split; [reflexivity|].
    apply (Init (Some "https://api.test") (CaBool false) (10 : Z) 3
             (new_world always_times_out)).
    reflexivity.
  - apply Held. reflexivity.
  - destruct (Unset (example_state_without_sink always_times_out 3))
      as (l & s' & E & L & _ & Again); [reflexivity|].
    exists l, s'. auto.
Defined.

(** ** [Result.copy] *)

Lemma copy_method_container (l : loc) (c : container) (h : heap) :
  h !! l = Some c ->
  copy_method (PRef l) h =
    (Return (PRef (fresh (dom h))), <[fresh (dom h) := c]> h).
Proof. intros E. unfold copy_method. now rewrite E. Qed.

Lemma fresh_not_allocated (h : heap) : h !! fresh (dom h) = None.
Proof. apply not_elem_of_dom, is_fresh. Qed.

(** X12.  With [data] and [request] both referring to containers, the copy refers
    to two newly allocated containers with the items of the originals; the
    heap is otherwise as it was, and whatever is stored afterwards in the
    containers of the copy, the containers that existed before keep their
    items. *)
Lemma Result_copy_independent (ld lr : loc) (cd cr : container) (h : heap) :
  h !! ld = Some cd -> h !! lr = Some cr ->
  exists ld' lr' h',
    Result_copy (mkResultObj (PRef ld) (PRef lr)) PUndefined PUndefined h
      = (Return (mkResultObj (PRef ld') (PRef lr')), h') /\
    h !! ld' = None /\ h !! lr' = None /\ ld' <> lr' /\
    h' !! ld' = Some cd /\ h' !! lr' = Some cr /\
    (forall l c, h !! l = Some c -> h' !! l = Some c) /\
    (forall l c cd'' cr'',
       h !! l = Some c -> <[lr' := cr'']> (<[ld' := cd'']> h') !! l = Some c).
Proof.
  intros Ed Er.
  set (ld' := fresh (dom h)).
  set (h1 := <[ld' := cd]> h).
  set (lr' := fresh (dom h1)).
  assert (Fd : h !! ld' = None) by apply fresh_not_allocated.
  assert (Fr : h1 !! lr' = None) by apply fresh_not_allocated.
  assert (Ne : ld' <> lr').
  { intros Eq. rewrite <- Eq in Fr. unfold h1 in Fr.
    now rewrite lookup_insert_eq in Fr. }
  assert (Fr' : h !! lr' = None).
  { unfold h1 in Fr. now rewrite lookup_insert_ne in Fr. }
  assert (Er1 : h1 !! lr = Some cr).
  { unfold h1. rewrite lookup_insert_ne; [exact Er|]. congruence. }
  exists ld', lr', (<[lr' := cr]> h1).
  split; [|split; [|split; [|split; [|split; [|split; [|split]]]]]].
  - unfold Result_copy. cbn [is_not_UNDEFINED obj_data obj_request].
    rewrite (copy_method_container ld cd h Ed). fold ld' h1.
    now rewrite (copy_method_container lr cr h1 Er1).
  - exact Fd.
  - exact Fr'.
  - exact Ne.
  - rewrite lookup_insert_ne by congruence. apply lookup_insert_eq.
  - apply lookup_insert_eq.
  - intros l c L. unfold h1. rewrite !lookup_insert_ne by congruence. exact L.
  - intros l c cd'' cr'' L. unfold h1.
    rewrite !lookup_insert_ne by congruence. exact L.
Qed.

(** C6.  On a [Result] whose [data] is [None], as [Result()] and the result
    that [request] builds before a response is processed have it, [copy()]
    without overrides raises [AttributeError] instead of returning a copy. *)
Theorem Result_copy_of_None_data_raises (request : pyval) (h : heap) :
  Result_copy (mkResultObj PNone request) PUndefined PUndefined h =
    (Raise (Exn AttributeError "'NoneType' object has no attribute 'copy'"
              None None), h) /\
  Result_copy (fst (Result_default h)) PUndefined PUndefined
    (snd (Result_default h)) =
    (Raise (Exn AttributeError "'NoneType' object has no attribute 'copy'"
              None None), snd (Result_default h)).
Proof. split; reflexivity. Qed.

(** [pass_result] overrides [data], so it copies [request] alone. *)
Lemma pass_result_of_default (d : pyval) (h : heap) :
  is_not_UNDEFINED d = true ->
  exists lr',
    pass_result d (fst (Result_default h)) (snd (Result_default h)) =
      (Return (mkResultObj d (PRef lr')),
       <[lr' := CDict ∅]> (snd (Result_default h))) /\
    PRef lr' <> obj_request (fst (Result_default h)).
Proof.
  intros D. unfold pass_result, Result_copy. rewrite D.
  cbn [is_not_UNDEFINED obj_request Result_default fst snd].
  rewrite (copy_method_container _ (CDict ∅)) by apply lookup_insert_eq.
  eexists. split; [reflexivity|].
  intros [= Eq].
  pose proof (fresh_not_allocated (<[fresh (dom h) := CDict ∅]> h)) as F.
  rewrite Eq, lookup_insert_eq in F. discriminate.
Qed.

Section ClientMore.
Context `{Env}.

Ltac run_m := unfold mbind, M_bind, mret, M_ret, raise, attr, emit, try_except.

(** ** Further properties of the client *)

(** *** Construction *)

Lemma endswith_slash_app (u : string) : endswith_slash (u +:+ "/") = true.
Proof.
  induction u as [|c u IH]; [reflexivity|].
  change (endswith_slash (String c (u +:+ "/")) = true).
  destruct (u +:+ "/") eqn:E.
  - destruct u; discriminate E.
  - exact IH.
Qed.

(** X1.  The base URL of a client always ends with [/]: a URL that ends with [/]
    is stored as it is, any other gets one [/] appended. *)
Theorem init_normalises_url (u : string) ca t mr w c w' :
  __init__ (Some u) ca t mr w = (Return c, w') ->
  endswith_slash (base_url c) = true /\
  base_url c = (if endswith_slash u then u else u +:+ "/").
Proof.
  unfold __init__.
  destruct (if is_False ca then Return true else Path_exists ca)
    as [[|]|e]; [|discriminate|discriminate].
  cbn. intros [= <- _]. cbn [base_url]. split; [|reflexivity].
  destruct (endswith_slash u) eqn:E; [exact E | apply endswith_slash_app].
Qed.

(** X2.  When [__init__] raises, nothing was created: the world is as it was.
    The exception is a [ValueError], except for [cacert=True], which [Path]
    rejects with a [TypeError]; without a URL it is the [ValueError] about
    the URL whatever [cacert] is. *)
Theorem init_failure_leaves_world url ca t mr w e w' :
  __init__ url ca t mr w = (Raise e, w') ->
  w' = w /\
  (url = None -> e = Exn ValueError "url must not be None" None None) /\
  (url <> None ->
     (ca = CaBool true /\ exn_class_of e = TypeError) \/
     (exists p, ca = CaPath p /\ path_exists p = false /\
        e = Exn ValueError "cacert must be a valid Path or False" None None)).
Proof.
  unfold __init__. destruct url as [u|].
  - destruct ca as [[|]|p]; cbn [is_False Path_exists].
    + intros [= <- <-]. split; [reflexivity|]. split; [discriminate|].
      intros _. left. split; reflexivity.
    + cbn. discriminate.
    + destruct (path_exists p) eqn:E; [cbn; discriminate|].
      intros [= <- <-]. split; [reflexivity|]. split; [discriminate|].
      intros _. right. exists p. repeat split. exact E.
  - intros [= <- <-]. split; [reflexivity|]. split; [reflexivity|].
    intros N. now destruct N.
Qed.

(** *** The logger and the lines before the loop *)

Lemma logger_eq s : logger s = (Return (sink_of s), with_sink s).
Proof.
  unfold logger, get__logger, try_except, sink_of, with_sink.
  destruct (_logger (self s)) as [l|] eqn:E; [reflexivity|].
  cbn [exn_class_of]. unfold make_logger. run_m. cbn. unfold sink_of.
  now rewrite E.
Qed.

Lemma with_sink_held s : is_Some (_logger (self (with_sink s))).
Proof.
  unfold with_sink. destruct (_logger (self s)) eqn:E;
    [rewrite E; eauto | cbn; eauto].
Qed.

Lemma with_sink_of_held s : is_Some (_logger (self s)) -> with_sink s = s.
Proof. intros [l E]. unfold with_sink. now rewrite E. Qed.

Lemma with_sink_idem s : with_sink (with_sink s) = with_sink s.
Proof. apply with_sink_of_held, with_sink_held. Qed.

Lemma with_sink_config s : same_config (self s) (self (with_sink s)).
Proof.
  unfold with_sink, same_config.
  destruct (_logger (self s)); cbn; tauto.
Qed.

Lemma request_start method endpoint attempt log kw s :
  request method endpoint attempt log kw s =
    for_in (range (_max_retries (self s) + 1))
      (attempt_body method (resolved_url s endpoint) (filter_none kw) log)
      (after_request_line method (resolved_url s endpoint) (filter_none kw)
         attempt log s).
Proof.
  unfold request, after_request_line, resolved_url. destruct log.
  - run_m. cbn [self]. rewrite logger_eq. cbn [self].
    destruct (with_sink_config s) as (_ & _ & _ & M1). now rewrite M1.
  - reflexivity.
Qed.

(** *** What a run of [request] leaves behind *)

Lemma steady_refl s : steady s s.
Proof. split; reflexivity. Qed.

Lemma steady_trans s1 s2 s3 : steady s1 s2 -> steady s2 s3 -> steady s1 s3.
Proof. intros [A1 A2] [B1 B2]. split; congruence. Qed.

Lemma appends_refl log s : appends log s s.
Proof. exists []. split; [now rewrite app_nil_r | constructor]. Qed.

Lemma appends_trans log s1 s2 s3 :
  appends log s1 s2 -> appends log s2 s3 -> appends log s1 s3.
Proof.
  intros (r1 & E1 & F1) (r2 & E2 & F2). exists (r1 ++ r2). split.
  - now rewrite E2, E1, app_assoc.
  - intros L. apply Forall_app. split; auto.
Qed.

Lemma on_failure_frame method url kw log a e s :
  (log = true -> is_Some (_logger (self s))) ->
  steady s (snd (on_failure method url kw log a e s)) /\
  appends log s (snd (on_failure method url kw log a e s)).
Proof.
  intros Held. unfold on_failure. destruct (is_ReadTimeout e).
  - run_m. cbn [self]. destruct (a >=? _max_retries (self s))%Z; cbn [snd].
    + split; [apply steady_refl | apply appends_refl].
    + split; [split; reflexivity|].
      eexists [_]. split; [reflexivity|]. intros _. repeat constructor.
  - destruct (is_Exception e); [|split; [apply steady_refl | apply appends_refl]].
    destruct log.
    + run_m. rewrite logger_eq, (with_sink_of_held s (Held eq_refl)).
      cbn [snd]. split; [split; reflexivity|].
      eexists [_]. split; [reflexivity | discriminate].
    + run_m. cbn [snd]. split; [apply steady_refl | apply appends_refl].
Qed.

(** One iteration, by the outcome of the call and of the processing of the
    response. *)
Lemma attempt_body_eq method url kw log a s :
  attempt_body method url kw log a s =
    let s1 := State (self s) (add_call (call_of s method url kw) (env s)) in
    match requests_request (call_of s method url kw)
            (length (calls (env s))) with
    | Return response =>
        match _process_response response
                (Result_of_request (request_dict url kw)) s1 with
        | (Return r, s2) => (Return (Returns r), s2)
        | (Raise e, s2) => on_failure method url kw log a e s2
        end
    | Raise e => on_failure method url kw log a e s1
    end.
Proof.
  unfold attempt_body, try_except, try_block.
  unfold mbind at 1, M_bind at 1. rewrite do_request_eq. cbv zeta.
  destruct (requests_request _ _) as [response|e]; [|reflexivity].
  unfold mbind, M_bind.
  now destruct (_process_response _ _ _) as [[r|e] s2].
Qed.

Lemma attempt_frame method url kw log a s :
  (log = true -> is_Some (_logger (self s))) ->
  steady s (snd (attempt_body method url kw log a s)) /\
  appends log s (snd (attempt_body method url kw log a s)).
Proof.
  intros Held. rewrite attempt_body_eq. cbv zeta.
  set (s1 := State (self s) (add_call (call_of s method url kw) (env s))).
  assert (S1 : steady s s1) by (split; reflexivity).
  assert (A1 : appends log s s1).
  { exists []. split; [cbn; now rewrite app_nil_r | constructor]. }
  assert (F : forall e,
            steady s (snd (on_failure method url kw log a e s1)) /\
            appends log s (snd (on_failure method url kw log a e s1))).
  { intros e. destruct (on_failure_frame method url kw log a e s1 Held)
      as [S2 A2].
    split; [exact (steady_trans _ _ _ S1 S2) | exact (appends_trans _ _ _ _ A1 A2)]. }
  destruct (requests_request _ _) as [response|e]; [|apply F].
  pose proof (process_response_state response
                (Result_of_request (request_dict url kw)) s1) as P.
  destruct (_process_response _ _ s1) as [[r|e] s2]; cbn [snd] in P |- *;
    subst s2; [now split | apply F].
Qed.

Lemma for_in_frame method url kw log (xs : list Z) :
  forall s,
    (log = true -> is_Some (_logger (self s))) ->
    steady s (snd (for_in xs (attempt_body method url kw log) s)) /\
    appends log s (snd (for_in xs (attempt_body method url kw log) s)).
Proof.
  induction xs as [|x xs IH]; intros s Held.
  - split; [apply steady_refl | apply appends_refl].
  - cbn [for_in]. unfold mbind, M_bind.
    destruct (attempt_frame method url kw log x s Held) as [S1 A1].
    destruct (attempt_body method url kw log x s) as [[[|r]|e] s1];
      cbn [snd] in S1, A1 |- *; [|now split|now split].
    destruct (IH s1) as [S2 A2].
    + destruct S1 as [E1 _]. now rewrite E1.
    + split; [exact (steady_trans _ _ _ S1 S2)
             | exact (appends_trans _ _ _ _ A1 A2)].
Qed.

(** X7.  [request] leaves the client as it was, but for this: with [log] a
    client without a sink gets one, created once before the loop.  No other
    handler is created, whatever the transport does. *)
Theorem request_client_frame method endpoint attempt log kw s :
  self (snd (request method endpoint attempt log kw s)) =
    self (if log then with_sink s else s) /\
  handlers_made (env (snd (request method endpoint attempt log kw s))) =
    handlers_made (env (if log then with_sink s else s)).
Proof.
  rewrite request_start.
  destruct (for_in_frame method (resolved_url s endpoint) (filter_none kw) log
              (range (_max_retries (self s) + 1))
              (after_request_line method (resolved_url s endpoint)
                 (filter_none kw) attempt log s)) as [[E1 E2] _].
  - intros ->. cbn [after_request_line self]. apply with_sink_held.
  - rewrite E1, E2. now destruct log.
Qed.

(** X8.  Without [log], [request] does not touch the client or its sink: the
    client is as it was, no handler is created, and the records it emits
    are those of the module's logger. *)
Theorem request_without_log_is_quiet method endpoint attempt kw s :
  self (snd (request method endpoint attempt false kw s)) = self s /\
  handlers_made (env (snd (request method endpoint attempt false kw s))) =
    handlers_made (env s) /\
  exists rs,
    records (env (snd (request method endpoint attempt false kw s))) =
      records (env s) ++ rs /\
    Forall module_record rs.
Proof.
  rewrite request_start. cbn [after_request_line].
  destruct (for_in_frame method (resolved_url s endpoint) (filter_none kw)
              false (range (_max_retries (self s) + 1)) s)
    as [[E1 E2] (rs & E3 & F)]; [discriminate|].
  split; [exact E1|]. split; [exact E2|]. exists rs. auto.
Qed.

(** *** How many calls, and when [None] comes back *)

(** X3.  Whatever the transport does, [request] evaluates at most
    [max_retries + 1] transport calls (none when [max_retries] is negative),
    and each of them is the same call: same method, resolved URL, [verify],
    [timeout] and filtered keyword arguments. *)
Theorem request_call_bound method endpoint attempt log kw s :
  exists n : nat,
    Z.of_nat n <= Z.max 0 (_max_retries (self s) + 1) /\
    calls (env (snd (request method endpoint attempt log kw s))) =
      calls (env s) ++
      replicate n
        (Call method (base_url (self s) +:+ endpoint) (cacert (self s))
           (_timeout (self s)) (filter_none kw)).
Proof.
  destruct (request_runs method endpoint attempt log kw s) as (n & B & C).
  exists n. split; [lia | exact C].
Qed.

Lemma on_failure_continue method url kw log a e s s' :
  on_failure method url kw log a e s = (Return Continue, s') ->
  a < _max_retries (self s).
Proof.
  unfold on_failure. destruct (is_ReadTimeout e).
  - run_m. cbn [self].
    destruct (Z.geb_spec a (_max_retries (self s))); [discriminate | lia].
  - destruct (is_Exception e); [|discriminate].
    destruct (log_exception_runs log e s) as (s1 & E & _).
    unfold mbind at 1, M_bind at 1. rewrite E. discriminate.
Qed.

(** The loop goes on after an iteration only before the last allowed
    attempt. *)
Lemma attempt_continue method url kw log a s s' :
  attempt_body method url kw log a s = (Return Continue, s') ->
  a < _max_retries (self s).
Proof.
  rewrite attempt_body_eq. cbv zeta.
  destruct (requests_request _ _) as [response|e].
  - pose proof (process_response_state response
                  (Result_of_request (request_dict url kw))
                  (State (self s) (add_call (call_of s method url kw) (env s))))
      as P.
    destruct (_process_response _ _ _) as [[r|e] s2]; [discriminate|].
    cbn [snd] in P. subst s2. apply on_failure_continue.
  - apply on_failure_continue.
Qed.

Lemma for_in_None method url kw log (xs : list Z) :
  forall s s',
    for_in xs (attempt_body method url kw log) s = (Return None, s') ->
    Forall (fun x => x < _max_retries (self s)) xs.
Proof.
  induction xs as [|x xs IH]; intros s s' E; [constructor|].
  cbn [for_in] in E. unfold mbind, M_bind in E.
  pose proof (attempt_runs method url kw log x s) as X1.
  destruct (attempt_body method url kw log x s) as [[[|r]|e] s1] eqn:A;
    [|discriminate|discriminate].
  constructor.
  - exact (attempt_continue _ _ _ _ _ _ _ A).
  - cbn [snd] in X1. destruct X1 as [(_ & _ & _ & M1) _].
    rewrite <- M1. exact (IH s1 s' E).
Qed.

(** X4.  [request] returns [None] exactly when the stored [max_retries] is
    negative: with [max_retries >= 0] every run ends in a [Result] or in an
    exception. *)
Theorem request_returns_None_iff method endpoint attempt log kw s :
  fst (request method endpoint attempt log kw s) = Return None <->
  _max_retries (self s) < 0.
Proof.
  split.
  - intros E.
    destruct (Z.lt_ge_cases (_max_retries (self s)) 0) as [L|G]; [exact L|].
    exfalso.
    destruct (request_unfold method endpoint attempt log kw s)
      as (s0 & X0 & E0).
    rewrite E0 in E.
    destruct (for_in _ _ s0) as [o s'] eqn:R. cbn [fst] in E. subst o.
    pose proof (for_in_None _ _ _ _ _ _ _ R) as F.
    rewrite Forall_forall in F.
    specialize (F (_max_retries (self s))).
    destruct X0 as [(_ & _ & _ & M0) _]. rewrite M0 in F.
    enough (_max_retries (self s) < _max_retries (self s)) by lia.
    apply F. unfold range. apply list_elem_of_In, in_map_iff.
    exists (Z.to_nat (_max_retries (self s))). split; [lia|].
    apply in_seq. lia.
  - intros L.
    destruct (request_skips_loop method endpoint attempt log kw s L)
      as (s' & E & _).
    now rewrite E.
Qed.

(** *** Failures while the response is processed *)

Lemma process_timeout response result e s :
  processing_raises response e ->
  is_Timeout e = true ->
  _process_response response result s =
    (Raise (Exn ExternalBrokerError
              ("Timeout error (" +:+ str_duration (_timeout (self s)) +:+ "S)")
              (Some (status_code response)) (Some e)), s).
Proof.
  intros [E1 | [E1 E2]] T; unfold _process_response, try_except;
    rewrite E1; [|rewrite E2]; unfold raise; rewrite T; reflexivity.
Qed.

(** X5.  Whatever [raise_for_status] or [json] raises (an HTTP error, a body that
    does not parse, even a read timeout), if it derives from [Exception]
    then [request] raises an [ExternalBrokerError] with the status code of
    the response and that exception as cause, the timeout message for the
    [Timeout] classes and the response message otherwise; it evaluates no
    further transport call. *)
Theorem request_processing_failure_is_fatal method endpoint attempt log kw s
    (k : nat) (response : Response) (e : exn) :
  Z.of_nat k <= _max_retries (self s) ->
  (forall j, (j < k)%nat ->
     times_out (request_call s method endpoint kw)
       (length (calls (env s)) + j)) ->
  requests_request (request_call s method endpoint kw)
    (length (calls (env s)) + k) = Return response ->
  processing_raises response e ->
  is_Exception e = true ->
  exists s',
    request method endpoint attempt log kw s =
      (Raise (Exn ExternalBrokerError
                (if is_Timeout e then
                   "Timeout error (" +:+ str_duration (_timeout (self s))
                     +:+ "S)"
                 else
                   response_error_msg response
                     (Result_of_request
                        (request_dict (resolved_url s endpoint)
                           (filter_none kw))))
                (Some (status_code response)) (Some e)), s') /\
    calls (env s') =
      calls (env s) ++ replicate (k + 1) (request_call s method endpoint kw).
Proof.
  intros B T E P X.
  destruct (request_after_timeouts method endpoint attempt log kw s k B T)
    as (s1 & X1 & E1).
  rewrite E1. cbn [for_in]. unfold mbind at 1, M_bind at 1.
  rewrite attempt_body_eq. cbv zeta.
  rewrite (call_of_extends _ _ _ _ _ _ X1), (length_after _ _ _ _ X1).
  fold (request_call s method endpoint kw). rewrite E.
  set (s2 := State (self s1) (add_call (request_call s method endpoint kw)
                                (env s1))).
  assert (X2 : extends s s2
                 (replicate (k + 1) (request_call s method endpoint kw))).
  { pose proof (extends_trans _ _ _ _ _ X1
                  (extends_add_call s1 (request_call s method endpoint kw)))
      as X0. now rewrite replicate_snoc in X0. }
  assert (T2 : _timeout (self s2) = _timeout (self s))
    by (destruct X1 as [(_ & _ & T1 & _) _]; exact T1).
  destruct (is_Timeout e) eqn:TO.
  - rewrite (process_timeout _ _ e) by assumption. rewrite T2.
    match goal with |- context [on_failure _ _ _ _ _ ?x s2] =>
      destruct (reraise_runs method (resolved_url s endpoint) (filter_none kw)
                  log (Z.of_nat k) x s2 s _ eq_refl X2) as (s3 & A3 & X3)
    end.
    rewrite A3. exists s3. split; [reflexivity | exact (proj2 X3)].
  - rewrite (process_fatal _ _ e) by assumption.
    match goal with |- context [on_failure _ _ _ _ _ ?x s2] =>
      destruct (reraise_runs method (resolved_url s endpoint) (filter_none kw)
                  log (Z.of_nat k) x s2 s _ eq_refl X2) as (s3 & A3 & X3)
    end.
    rewrite A3. exists s3. split; [reflexivity | exact (proj2 X3)].
Qed.

(** *** Arguments that line 162 passes itself *)

Lemma rebinds_duplicate (kw : kwargs_t) :
  rebinds kw -> exists name, duplicate_argument kw = Some name.
Proof.
  intros (key & K & S). unfold duplicate_argument.
  destruct (List.find _ bound_names) as [name|] eqn:F; [eauto|].
  exfalso. pose proof (find_none _ _ F key) as N.
  assert (I : In key bound_names).
  { unfold bound_names. destruct K as [-> | [-> | ->]]; cbn; tauto. }
  specialize (N I). apply bool_decide_eq_false in N. exact (N S).
Qed.

(** X6.  A caller cannot override [verify] or [timeout], nor pass [url], through
    the keyword arguments: when the filtered arguments bind one of these
    names and [max_retries] is not negative, [request] raises the
    [TypeError] of the duplicate argument at the first attempt and does not
    try again, whatever the transport would have done. *)
Theorem request_rejects_rebound_argument method endpoint attempt log kw s :
  0 <= _max_retries (self s) ->
  rebinds (filter_none kw) ->
  exists e s',
    request method endpoint attempt log kw s = (Raise e, s') /\
    exn_class_of e = TypeError /\
    calls (env s') = calls (env s) ++ [request_call s method endpoint kw].
Proof.
  intros B R. destruct (rebinds_duplicate _ R) as (name & D).
  destruct (request_after_timeouts method endpoint attempt log kw s 0)
    as (s1 & X1 & E1); [cbn; lia | intros j Hj; lia |].
  destruct (attempt_other_failure method (resolved_url s endpoint)
              (filter_none kw) log (Z.of_nat 0) s1
              (Exn TypeError
                 ("request() got multiple values for argument '" +:+ name
                    +:+ "'") None None)) as (s2 & A2 & X2).
  - unfold requests_request. cbn [call_of call_kwargs]. now rewrite D.
  - reflexivity.
  - eexists _, s2. split.
    + rewrite E1. cbn [for_in]. unfold mbind at 1, M_bind at 1.
      now rewrite A2.
    + split; [reflexivity|].
      rewrite (call_of_extends _ _ _ _ _ _ X1) in X2.
      pose proof (extends_trans _ _ _ _ _ X1 X2) as X3. exact (proj2 X3).
Qed.

(** *** The wrappers *)

(** X10.  With [max_retries >= 0], [get] evaluates at least one transport
    call, and every call it evaluates has the verb GET and carries the
    parameters under [params]; [post] and [delete] likewise with the verbs
    POST and DELETE and the parameters under [json].  Each goes to
    [base_url + path] and evaluates at most [max_retries + 1] calls. *)
Theorem wrappers_dispatch path params log s :
  0 <= _max_retries (self s) ->
  (exists n : nat,
     (1 <= n)%nat /\ Z.of_nat n <= _max_retries (self s) + 1 /\
     calls (env (snd (get path params log s))) =
       calls (env s) ++
       replicate n
         (Call "GET" (base_url (self s) +:+ path) (cacert (self s))
            (_timeout (self s)) (filter_none {[ "params" := params ]}))) /\
  (exists n : nat,
     (1 <= n)%nat /\ Z.of_nat n <= _max_retries (self s) + 1 /\
     calls (env (snd (post path params log s))) =
       calls (env s) ++
       replicate n
         (Call "POST" (base_url (self s) +:+ path) (cacert (self s))
            (_timeout (self s)) (filter_none {[ "json" := params ]}))) /\
  (exists n : nat,
     (1 <= n)%nat /\ Z.of_nat n <= _max_retries (self s) + 1 /\
     calls (env (snd (delete path params log s))) =
       calls (env s) ++
       replicate n
         (Call "DELETE" (base_url (self s) +:+ path) (cacert (self s))
            (_timeout (self s)) (filter_none {[ "json" := params ]}))).
Proof.
  intros B. unfold get, post, delete.
  repeat split;
    match goal with
    | |- context [request ?m ?p ?a ?l ?k s] =>
        exact (request_runs_pos m p a l k s B)
    end.
Qed.

(** *** The log of the retries *)

Lemma after_request_line_extends method url kw attempt log s :
  extends s (after_request_line method url kw attempt log s) [].
Proof.
  unfold after_request_line. destruct log; [|apply extends_refl].
  split; [exact (with_sink_config s)|]. cbn. rewrite app_nil_r.
  unfold with_sink. now destruct (_logger (self s)).
Qed.

Lemma attempt_timeout_retry_exact method url kw log (a : nat) s e :
  requests_request (call_of s method url kw) (length (calls (env s)))
    = Raise e ->
  is_ReadTimeout e = true ->
  Z.of_nat a < _max_retries (self s) ->
  attempt_body method url kw log (Z.of_nat a) s =
    (Return Continue, after_retries method url kw a 1 s).
Proof.
  intros E T L. rewrite attempt_body_eq, E. cbv zeta.
  unfold on_failure. rewrite T. run_m. cbn [self].
  destruct (Z.geb_spec (Z.of_nat a) (_max_retries (self s))); [lia|].
  unfold after_retries, retry_line, add_record, add_call. cbn.
  now rewrite Nat2Z.inj_succ, <- Z.add_1_r.
Qed.

Lemma after_retries_step method url kw (a k : nat) s :
  after_retries method url kw (S a) k (after_retries method url kw a 1 s) =
  after_retries method url kw a (S k) s.
Proof.
  unfold after_retries. cbn -[replicate seq List.map].
  f_equal. f_equal.
  - now rewrite <- app_assoc.
  - rewrite <- app_assoc. reflexivity.
Qed.

(** [k] timeouts in a row, each retried: the state in which the loop goes
    on. *)
Lemma timeouts_exact method url kw log (k : nat) :
  forall (a : nat) (s : state) (rest : list Z),
    Z.of_nat (a + k) <= _max_retries (self s) ->
    (forall j, (j < k)%nat ->
       times_out (call_of s method url kw) (length (calls (env s)) + j)) ->
    for_in (List.map Z.of_nat (seq a k) ++ rest)
      (attempt_body method url kw log) s
    = for_in rest (attempt_body method url kw log)
        (after_retries method url kw a k s).
Proof.
  induction k as [|k IH]; intros a s rest B T.
  - cbn [seq List.map app]. f_equal. unfold after_retries. cbn.
    rewrite !app_nil_r. now destruct s as [c [cs hm rs]].
  - destruct (T 0%nat) as (e & E & RT); [lia|].
    rewrite Nat.add_0_r in E.
    cbn [seq List.map app for_in]. unfold mbind at 1, M_bind at 1.
    rewrite (attempt_timeout_retry_exact _ _ _ _ _ _ e E RT) by lia.
    rewrite IH.
    + now rewrite after_retries_step.
    + cbn [after_retries self]. lia.
    + intros j Hj. destruct (T (S j)) as (e' & E' & RT'); [lia|].
      exists e'. split; [|exact RT'].
      unfold after_retries at 1 2. cbn [self env calls call_of].
      fold (call_of s method url kw).
      rewrite length_app. cbn [replicate length].
      now replace (length (calls (env s)) + 1 + j)%nat
        with (length (calls (env s)) + S j)%nat by lia.
Qed.

(** X9.  When every attempt times out, the log shows the line of the request (with
    [log]) and then one line of the module logger for each retry, numbered
    [1/N] to [N/N]; the last timeout, which ends the request, leaves no
    line. *)
Theorem retries_are_logged method endpoint attempt log kw s (N : nat) :
  _max_retries (self s) = Z.of_nat N ->
  (forall j, (j <= N)%nat ->
     times_out (request_call s method endpoint kw)
       (length (calls (env s)) + j)) ->
  records (env (snd (request method endpoint attempt log kw s))) =
    records (env s) ++
    (if log then
       [LogInfo (ClientLogger (sink_of s))
          (request_line method (resolved_url s endpoint) (filter_none kw)
             attempt)]
     else []) ++
    List.map
      (fun j =>
         LogInfo ModuleLogger
           (retry_line method (resolved_url s endpoint) (Z.of_nat N) j))
      (seq 1 N).
Proof.
  intros MR T.
  set (url := resolved_url s endpoint). set (kw' := filter_none kw).
  set (s0 := after_request_line method url kw' attempt log s).
  pose proof (after_request_line_extends method url kw' attempt log s) as X0.
  fold s0 in X0.
  assert (C0 : call_of s0 method url kw' = request_call s method endpoint kw)
    by exact (call_of_extends _ _ _ _ _ _ X0).
  assert (L0 : length (calls (env s0)) = length (calls (env s))).
  { destruct X0 as [_ C]. now rewrite C, app_nil_r. }
  assert (M0 : _max_retries (self s0) = Z.of_nat N).
  { destruct X0 as [(_ & _ & _ & M) _]. now rewrite M. }
  rewrite request_start. fold url kw' s0.
  rewrite (range_split _ N) by lia.
  rewrite timeouts_exact.
  - destruct (T N) as (e & E & RT); [lia|].
    cbn [for_in]. unfold mbind, M_bind. rewrite attempt_body_eq. cbv zeta.
    set (s1 := after_retries method url kw' 0 N s0).
    assert (C1 : call_of s1 method url kw' = request_call s method endpoint kw)
      by exact C0.
    assert (L1 : length (calls (env s1)) = (length (calls (env s)) + N)%nat).
    { unfold s1, after_retries. cbn [env calls].
      now rewrite length_app, length_replicate, L0. }
    rewrite C1, L1, E. unfold on_failure. rewrite RT. run_m. cbn [self].
    destruct (Z.geb_spec (Z.of_nat N) (_max_retries (self s1))) as [_|Lt].
    + cbn [snd env records add_call]. unfold s1, after_retries.
      cbn [env records self]. rewrite M0.
      unfold s0, after_request_line. destruct log; cbn [env records add_record].
      * rewrite <- !app_assoc. f_equal.
        unfold with_sink. now destruct (_logger (self s)).
      * reflexivity.
    + exfalso. unfold s1, after_retries in Lt. cbn [self] in Lt. lia.
  - rewrite M0. lia.
  - intros j Hj. rewrite C0, L0. apply T. lia.
Qed.

(** *** Construction followed by requests *)

Lemma init_sets_logger url ca t mr w c w' :
  __init__ url ca t mr w = (Return c, w') -> is_Some (_logger c).
Proof.
  unfold __init__. destruct url as [u|]; [|discriminate].
  destruct (if is_False ca then Return true else Path_exists ca)
    as [[|]|e]; [|discriminate|discriminate].
  cbn. intros [= <- _]. cbn. eauto.
Qed.

(** X11.  A client built by [__init__] is never modified by [request], with or
    without [log], and no request on it creates another handler: the sink of
    the construction is the one in use, whatever the transport does. *)
Theorem constructed_client_is_kept url ca t mr w c w'
    method endpoint attempt log kw :
  __init__ url ca t mr w = (Return c, w') ->
  self (snd (request method endpoint attempt log kw (State c w'))) = c /\
  handlers_made (env (snd (request method endpoint attempt log kw
                             (State c w')))) = handlers_made w'.
Proof.
  intros I. pose proof (init_sets_logger _ _ _ _ _ _ _ I) as Held.
  rewrite request_start.
  assert (S0 : after_request_line method
                 (resolved_url (State c w') endpoint) (filter_none kw)
                 attempt log (State c w')
               = State c (env (after_request_line method
                                 (resolved_url (State c w') endpoint)
                                 (filter_none kw) attempt log (State c w')))
               /\ handlers_made
                    (env (after_request_line method
                            (resolved_url (State c w') endpoint)
                            (filter_none kw) attempt log (State c w')))
                  = handlers_made w').
  { unfold after_request_line. destruct log; [|split; reflexivity].
    rewrite (with_sink_of_held (State c w') Held). split; reflexivity. }
  destruct S0 as [S0 H0].
  destruct (for_in_frame method (resolved_url (State c w') endpoint)
              (filter_none kw) log
              (range (_max_retries (self (State c w')) + 1))
              (after_request_line method (resolved_url (State c w') endpoint)
                 (filter_none kw) attempt log (State c w')))
    as [[E1 E2] _].
  - intros _. rewrite S0. exact Held.
  - rewrite E1, E2, H0. rewrite S0. split; reflexivity.
Qed.

End ClientMore.

(** ** Further properties of [Result.copy] and [pass_result] *)

Lemma copy_method_immediate (v : pyval) (h : heap) :
  ~ is_ref v -> copy_method v h = (Raise (no_copy_attribute v), h).
Proof. destruct v; cbn; tauto. Qed.

(** X13.  [pass_result(data, old_result)] stores [data] as it is given (the same
    object, not a copy, and also an explicit [None]) and copies [request]
    into a new container, leaving the containers of the heap alone; it never
    looks at [old_result.data], so it works on a result whose [data] is
    [None]. *)
Theorem pass_result_keeps_data_copies_request (d old_data : pyval)
    (lr : loc) (cr : container) (h : heap) :
  is_not_UNDEFINED d = true ->
  h !! lr = Some cr ->
  exists lr',
    pass_result d (mkResultObj old_data (PRef lr)) h =
      (Return (mkResultObj d (PRef lr')), <[lr' := cr]> h) /\
    h !! lr' = None.
Proof.
  intros D L. exists (fresh (dom h)). split.
  - unfold pass_result, Result_copy. rewrite D.
    cbn [is_not_UNDEFINED obj_request].
    now rewrite (copy_method_container lr cr h L).
  - apply fresh_not_allocated.
Qed.

(** X14.  [copy()] without overrides returns a [Result] exactly when both [data]
    and [request] refer to containers; otherwise ([None], a number, a
    string) it raises [AttributeError]. *)
Theorem Result_copy_succeeds_iff_containers (r : ResultObj) (h : heap) :
  live h (obj_data r) -> live h (obj_request r) ->
  match fst (Result_copy r PUndefined PUndefined h) with
  | Return _ => is_ref (obj_data r) /\ is_ref (obj_request r)
  | Raise e =>
      exn_class_of e = AttributeError /\
      ~ (is_ref (obj_data r) /\ is_ref (obj_request r))
  end.
Proof.
  destruct r as [d q]. cbn [obj_data obj_request]. intros Ld Lq.
  unfold Result_copy. cbn [is_not_UNDEFINED obj_data obj_request].
  destruct d as [| | | | |ld];
    try (cbn; split; [reflexivity | intros [[] _]]).
  destruct Ld as [cd Ed]. rewrite (copy_method_container ld cd h Ed).
  destruct q as [| | | | |lr];
    try (cbn; split; [reflexivity | intros [_ []]]).
  destruct Lq as [cr Er].
  rewrite (copy_method_container lr cr (<[fresh (dom h) := cd]> h)).
  - cbn. tauto.
  - rewrite lookup_insert_ne; [exact Er|].
    intros Eq. pose proof (fresh_not_allocated h) as F.
    rewrite Eq, Er in F. discriminate.
Qed.

(** ** The further properties at concrete inputs *)

Lemma init_normalises_url_witness :
  endswith_slash (base_url (self (example_state always_times_out 3))) = true /\
  base_url (self (example_state always_times_out 3)) = "https://api.test/".
Proof.
  exact (init_normalises_url (H := example_env always_times_out)
           "https://api.test" (CaBool false) (10 : Z) 3
           (new_world always_times_out)
           (self (example_state always_times_out 3))
           (env (example_state always_times_out 3)) eq_refl).
Defined.

Lemma init_failure_leaves_world_witness :
  exists e,
    example_init always_times_out (CaBool true) 3 =
      (Raise e, new_world always_times_out) /\
    exn_class_of e = TypeError.
Proof.
  eexists. split; [reflexivity|].
  destruct (init_failure_leaves_world (H := example_env always_times_out)
              (Some "https://api.test") (CaBool true) (10 : Z) 3
              (new_world always_times_out) _ _ eq_refl) as (_ & _ & R).
  destruct R as [[_ T] | (p & P & _)]; [discriminate | exact T | discriminate P].
Defined.

Lemma request_processing_failure_is_fatal_witness :
  exists e s',
    request "GET" "orders" 0 true {[ "params" := VNone ]}
      (example_state always_unparsable 3) = (Raise e, s') /\
    exn_class_of e = ExternalBrokerError /\
    exn_status_code e = Some 200 /\
    exn_cause e = Some (Exn JSONDecodeError "Expecting value" None None) /\
    length (calls (env s')) = 1%nat.
Proof.
  destruct (request_processing_failure_is_fatal
              (H := example_env always_unparsable)
              "GET" "orders" 0 true {[ "params" := VNone ]}
              (example_state always_unparsable 3) 0 unparsable_response
              (Exn JSONDecodeError "Expecting value" None None))
    as (s' & E & C).
  - cbn. lia.
  - intros j Hj. lia.
  - reflexivity.
  - right. split; reflexivity.
  - reflexivity.
  - eexists _, s'. split; [exact E|]. rewrite C. repeat split; reflexivity.
Defined.

Lemma request_rejects_rebound_argument_witness :
  exists e s',
    request "GET" "orders" 0 true {[ "timeout" := VInt 5 ]}
      (example_state third_time_lucky 3) = (Raise e, s') /\
    exn_class_of e = TypeError /\
    length (calls (env s')) = 1%nat.
Proof.
  destruct (request_rejects_rebound_argument
              (H := example_env third_time_lucky)
              "GET" "orders" 0 true {[ "timeout" := VInt 5 ]}
              (example_state third_time_lucky 3))
    as (e & s' & E & T & C).
  - cbn. lia.
  - exists "timeout". split; [right; left; reflexivity|].
    exists (VInt 5). reflexivity.
  - exists e, s'. split; [exact E|]. split; [exact T|]. rewrite C. reflexivity.
Defined.

Lemma retries_are_logged_witness :
  records
    (env (snd (request "GET" "orders" 0 true {[ "params" := VNone ]}
                 (example_state always_times_out 2)))) =
    [LogInfo (ClientLogger 0%nat)
       "GET https://api.test/orders {'params': None}";
     LogInfo ModuleLogger
       "Timeout for GET https://api.test/orders, retrying attempt 1/2";
     LogInfo ModuleLogger
       "Timeout for GET https://api.test/orders, retrying attempt 2/2"].
Proof.
  rewrite (retries_are_logged (H := example_env always_times_out)
             "GET" "orders" 0 true {[ "params" := VNone ]}
             (example_state always_times_out 2) 2).
  - reflexivity.
  - reflexivity.
  - intros j _. exists (read_timeout (0 + j)). split; reflexivity.
Defined.

Lemma wrappers_dispatch_witness :
  (exists n : nat,
     (1 <= n)%nat /\
     calls (env (snd (get "orders" (VDict [("a", VInt 1)]) true
                        (example_state third_time_lucky 3)))) =
       replicate n
         (@Call (example_env third_time_lucky) "GET"
            "https://api.test/orders" (CaBool false) 10
            {[ "params" := VDict [("a", VInt 1)] ]})) /\
  (exists n : nat,
     (1 <= n)%nat /\
     calls (env (snd (post "orders" (VDict [("a", VInt 1)]) true
                        (example_state third_time_lucky 3)))) =
       replicate n
         (@Call (example_env third_time_lucky) "POST"
            "https://api.test/orders" (CaBool false) 10
            {[ "json" := VDict [("a", VInt 1)] ]})) /\
  (exists n : nat,
     (1 <= n)%nat /\
     calls (env (snd (delete "orders" (VDict [("a", VInt 1)]) true
                        (example_state third_time_lucky 3)))) =
       replicate n
         (@Call (example_env third_time_lucky) "DELETE"
            "https://api.test/orders" (CaBool false) 10
            {[ "json" := VDict [("a", VInt 1)] ]})).
Proof.
  destruct (wrappers_dispatch (H := example_env third_time_lucky)
              "orders" (VDict [("a", VInt 1)]) true
              (example_state third_time_lucky 3))
    as ((n1 & P1 & _ & C1) & (n2 & P2 & _ & C2) & (n3 & P3 & _ & C3)).
  - cbn. lia.
  - split; [|split]; [exists n1 | exists n2 | exists n3]; (split; [assumption|]).
    + exact C1.
    + exact C2.
    + exact C3.
Defined.

Lemma constructed_client_is_kept_witness :
  self (snd (request "GET" "orders" 0 true {[ "params" := VNone ]}
               (example_state third_time_lucky 3))) =
    self (example_state third_time_lucky 3) /\
  handlers_made
    (env (snd (request "GET" "orders" 0 true {[ "params" := VNone ]}
                 (example_state third_time_lucky 3)))) = 1%nat.
Proof.
  exact (constructed_client_is_kept (H := example_env third_time_lucky)
           (Some "https://api.test") (CaBool false) (10 : Z) 3
           (new_world third_time_lucky)
           (self (example_state third_time_lucky 3))
           (env (example_state third_time_lucky 3))
           "GET" "orders" 0 true {[ "params" := VNone ]} eq_refl).
Defined.

Lemma Result_copy_independent_witness :
  exists ld' lr' h',
    Result_copy example_result_nested PUndefined PUndefined
      example_heap_nested
      = (Return (mkResultObj (PRef ld') (PRef lr')), h') /\
    ld' <> 2%nat /\ lr' <> 0%nat /\
    h' !! ld' = Some (CDict {[ "a" := PRef 1%nat ]}) /\
    h' !! 2%nat = Some (CDict {[ "a" := PRef 1%nat ]}) /\
    <[ld' := CDict ∅]> h' !! 2%nat = Some (CDict {[ "a" := PRef 1%nat ]}).
Proof.
  destruct (Result_copy_independent 2%nat 0%nat
              (CDict {[ "a" := PRef 1%nat ]}) (CDict {[ "url" := PStr "u" ]})
              example_heap_nested)
    as (ld' & lr' & h' & E & Fd & Fr & Ne & Hd & Hr & Old & Upd);
    [reflexivity | reflexivity |].
  exists ld', lr', h'. split; [exact E|].
  assert (K2 : example_heap_nested !! 2%nat
               = Some (CDict {[ "a" := PRef 1%nat ]})) by reflexivity.
  assert (K0 : example_heap_nested !! 0%nat
               = Some (CDict {[ "url" := PStr "u" ]})) by reflexivity.
  split; [intros ->; discriminate (eq_trans (eq_sym K2) Fd)|].
  split; [intros ->; discriminate (eq_trans (eq_sym K0) Fr)|].
  split; [exact Hd|]. split; [apply Old; reflexivity|].
  pose proof (Upd 2%nat (CDict {[ "a" := PRef 1%nat ]}) (CDict ∅)
                (CDict {[ "url" := PStr "u" ]}) eq_refl) as U.
  rewrite lookup_insert_ne in U; [exact U|].
  intros ->. discriminate (eq_trans (eq_sym K2) Fr).
Defined.

Lemma pass_result_keeps_data_copies_request_witness :
  exists lr',
    pass_result (PRef 2%nat) example_result example_heap_nested =
      (Return (mkResultObj (PRef 2%nat) (PRef lr')),
       <[lr' := CDict {[ "url" := PStr "u" ]}]> example_heap_nested) /\
    example_heap_nested !! lr' = None.
Proof.
  apply (pass_result_keeps_data_copies_request (PRef 2%nat) PNone 0%nat
           (CDict {[ "url" := PStr "u" ]}) example_heap_nested);
    reflexivity.
Defined.

Lemma Result_copy_succeeds_iff_containers_witness :
  match fst (Result_copy example_result PUndefined PUndefined example_heap)
  with
  | Return _ =>
      is_ref (obj_data example_result) /\ is_ref (obj_request example_result)
  | Raise e =>
      exn_class_of e = AttributeError /\
      ~ (is_ref (obj_data example_result) /\
         is_ref (obj_request example_result))
  end.
Proof.
  apply (Result_copy_succeeds_iff_containers example_result example_heap).
  - exact I.
  - cbn. eauto.
Defined.
